(** * hamcrest.core.core.raises: the [raises] matcher and [calling]

    A shallow embedding of [src/hamcrest/core/core/raises.py].

    Python objects are modelled by what the module observes of them: their
    identity, whether they are callable, their [str]/[repr] texts and what
    calling them does.  A call either returns a value or raises; both may
    change the state the callee acts on.  The matcher's fields, the
    description it writes to and that state are threaded through a small
    state-and-exception monad, so that each method reads like its source.

    An object also says whether it supports weak references, since
    [weakref.ref] raises on one that does not, and whether it is a tuple,
    since the [%] operator takes a tuple for its argument list.

    Modelling boundary.  [str], [repr] and [isinstance] are total; the
    regular-expression engine [re.search] is a parameter of the development
    and may raise. *)

From Stdlib Require Import String Ascii ZArith List Lia.
From stdpp Require Import base option strings list gmap.

Set Default Proof Using "Type".

(* ===================================================================== *)
(** ** Python values, exceptions and results *)
(* ===================================================================== *)

Module Py.

(** The argument and return values the development needs. *)
Inductive PyVal : Type :=
| VNone
| VBool (b : bool)
| VInt (z : Z)
| VStr (s : string).

(** An exception object: its class, the method resolution order of that
    class (the class itself first), and its [str] and [repr]. *)
Record PyExc : Type := mkExc {
  exc_class : string;
  exc_mro : list string;
  exc_str : string;
  exc_repr : string
}.

(** The result of evaluating a Python expression: a value, or a raised
    exception. *)
Inductive res (A : Type) : Type :=
| Ok (a : A)
| Raise (e : PyExc).
Arguments Ok {A} a.
Arguments Raise {A} e.

(** [isinstance(e, K)]: [K] occurs in [type(e).__mro__]. *)
Definition isinstance (e : PyExc) (K : string) : bool :=
  bool_decide (K ∈ exc_mro e).

(** The double-quote character, as a one-character string. *)
Definition dq : string := String (ascii_of_nat 34) EmptyString.

(** [str(K)] for a class [K]. *)
Definition class_str (K : string) : string := "<class '" +:+ K +:+ "'>".

(** [repr(x)] and [str(type(x))] for [x] an exception or [None]. *)
Definition repr_opt (a : option PyExc) : string :=
  match a with
  | Some e => exc_repr e
  | None => "None"
  end.

Definition type_str_opt (a : option PyExc) : string :=
  match a with
  | Some e => class_str (exc_class e)
  | None => class_str "NoneType"
  end.

(** [s] occurs inside [t]. *)
Definition contains (t s : string) : Prop :=
  exists a b : string, t = a +:+ s +:+ b.

End Py.
Import Py.

(* ===================================================================== *)
(** ** Objects, calls and the world *)
(* ===================================================================== *)

Section World.

(** The state the callables under test read and write (counters, files,
    whatever the test touches). *)
Context {U : Type}.

(** A Python object as the module sees it.  [obj_call] is what calling it
    with positional and named arguments does when it is callable.
    [obj_weakref] says whether weak references to it can be made: they can
    to functions, lambdas and instances of ordinary classes, and cannot to
    integers, tuples, instances of a class with [__slots__] and no
    [__weakref__] slot, or method descriptors such as [str.upper].
    [obj_tuple] is [Some] of the [str] of its elements when the object is a
    tuple. *)
Record PyObj : Type := mkObj {
  obj_id : nat;
  obj_callable : bool;
  obj_weakref : bool;
  obj_tuple : option (list string);
  obj_type : string;
  obj_str : string;
  obj_call : list PyVal -> gmap string PyVal -> U -> res PyVal * U
}.

(** One call, as observed from outside: who was called, with what, and
    whether it raised. *)
Record event : Type := mkEvent {
  ev_target : nat;
  ev_args : list PyVal;
  ev_kwargs : gmap string PyVal;
  ev_outcome : option PyExc
}.

Record World : Type := mkWorld {
  store : U;
  trace : list event
}.

(** The [TypeError] Python raises when a non-callable is called. *)
Definition not_callable_error (f : PyObj) : PyExc :=
  {| exc_class := "TypeError";
     exc_mro := ["TypeError"; "Exception"; "BaseException"; "object"];
     exc_str := "'" +:+ obj_type f +:+ "' object is not callable";
     exc_repr := "TypeError(" +:+ dq +:+ "'" +:+ obj_type f
                 +:+ "' object is not callable" +:+ dq +:+ ")" |}.

(** The [TypeError] of [weakref.ref] on an object that does not support
    weak references. *)
Definition weakref_error (f : PyObj) : PyExc :=
  {| exc_class := "TypeError";
     exc_mro := ["TypeError"; "Exception"; "BaseException"; "object"];
     exc_str := "cannot create weak reference to '" +:+ obj_type f
                +:+ "' object";
     exc_repr := "TypeError(" +:+ dq +:+ "cannot create weak reference to '"
                 +:+ obj_type f +:+ "' object" +:+ dq +:+ ")" |}.

(** The [TypeError] of the [%] operator when the arguments do not fit the
    format. *)
Definition format_error (msg : string) : PyExc :=
  {| exc_class := "TypeError";
     exc_mro := ["TypeError"; "Exception"; "BaseException"; "object"];
     exc_str := msg;
     exc_repr := "TypeError('" +:+ msg +:+ "')" |}.

(** [("%s" + suffix) % item], a format with one place.  A tuple on the
    right of [%] is the argument list: one element fills the place, none
    or several do not fit.  Any other object fills the place itself. *)
Definition format_s (suffix : string) (item : PyObj) : res string :=
  match obj_tuple item with
  | None => Ok (obj_str item +:+ suffix)
  | Some [] => Raise (format_error "not enough arguments for format string")
  | Some [x] => Ok (x +:+ suffix)
  | Some (_ :: _ :: _) =>
      Raise (format_error
               "not all arguments converted during string formatting")
  end.

(** Calling [f] with [args] and [kwargs], on the store alone. *)
Definition apply_obj (f : PyObj) (args : list PyVal)
    (kwargs : gmap string PyVal) (u : U) : res PyVal * U :=
  if obj_callable f then obj_call f args kwargs u
  else (Raise (not_callable_error f), u).

Definition outcome_of {A : Type} (r : res A) : option PyExc :=
  match r with
  | Ok _ => None
  | Raise e => Some e
  end.

(** Calling [f] with [args] and [kwargs] in the world: the call runs on
    the store and is appended to the trace. *)
Definition call_in (f : PyObj) (args : list PyVal)
    (kwargs : gmap string PyVal) (w : World) : res PyVal * World :=
  let ru := apply_obj f args kwargs (store w) in
  (ru.1,
   {| store := ru.2;
      trace := trace w ++ [mkEvent (obj_id f) args kwargs (outcome_of ru.1)] |}).

(** How often object [o] was called in a trace. *)
Definition calls_of (o : nat) (t : list event) : nat :=
  length (filter (fun ev => ev_target ev = o) t).

End World.

Arguments PyObj U : clear implicits.
Arguments World U : clear implicits.

(* ===================================================================== *)
(** ** class Raises *)
(* ===================================================================== *)

(** A weak reference: it resolves to its referent while that object is
    alive, and to [None] once the object has been collected. *)
Inductive weakref : Type :=
| Live (o : nat)
| Dead.

(** Calling a weak reference. *)
Definition deref (r : weakref) : option nat :=
  match r with
  | Live o => Some o
  | Dead => None
  end.

(** The fields of a [Raises] instance.  [expected] is the expected
    exception class, [function] the weak reference to the callable checked
    last. *)
Record Raises : Type := mkRaises {
  pattern : option string;
  expected : string;
  actual : option PyExc;
  function : option weakref
}.

(** Modelled from the spec: [hamcrest.core.description.Description] is not
    part of the sources at hand; the spec calls it an append-only
    text-building collaborator.  It is the text appended so far, and
    [append_text] adds to its end. *)
Definition Description : Type := string.

Section Machine.

Context {U : Type}.

(** What a method of the matcher can touch: the matcher itself, the
    description it was handed, and the world its candidate runs in. *)
Record Machine : Type := mkMachine {
  self : Raises;
  sink : Description;
  env : World U
}.

(** A computation that may raise; the state changes made before the
    exception are kept, as in Python. *)
Definition M (A : Type) : Type := Machine -> res A * Machine.

Definition ret {A : Type} (a : A) : M A := fun s => (Ok a, s).

Definition bind {A B : Type} (m : M A) (k : A -> M B) : M B :=
  fun s =>
    match m s with
    | (Ok a, s') => k a s'
    | (Raise e, s') => (Raise e, s')
    end.

(** [try: m except BaseException: ...]: the outcome becomes a value. *)
Definition try_ {A : Type} (m : M A) : M (res A) :=
  fun s => let rs := m s in (Ok rs.1, rs.2).

Definition lift {A : Type} (r : res A) : M A := fun s => (r, s).

Definition get_self : M Raises := fun s => (Ok (self s), s).

Definition set_actual (a : option PyExc) : M unit :=
  fun s =>
    (Ok tt,
     mkMachine (mkRaises (pattern (self s)) (expected (self s)) a
                         (function (self s)))
               (sink s) (env s)).

Definition set_function (r : option weakref) : M unit :=
  fun s =>
    (Ok tt,
     mkMachine (mkRaises (pattern (self s)) (expected (self s))
                         (actual (self s)) r)
               (sink s) (env s)).

(** [description.append_text(text)] *)
Definition append_text (text : string) : M unit :=
  fun s => (Ok tt, mkMachine (self s) (sink s +:+ text) (env s)).

(** [function()] *)
Definition call (f : PyObj U) : M PyVal :=
  fun s =>
    let rw := call_in f [] ∅ (env s) in
    (rw.1, mkMachine (self s) (sink s) rw.2).

(** [ref(function)] *)
Definition ref (f : PyObj U) : res weakref :=
  if obj_weakref f then Ok (Live (obj_id f)) else Raise (weakref_error f).

(** The garbage collector reclaims object [o]: a weak reference to it
    dies.  Nothing else of the matcher refers to [o]. *)
Definition collect (o : nat) (s : Machine) : Machine :=
  match function (self s) with
  | Some (Live o') =>
      if decide (o' = o)
      then mkMachine (mkRaises (pattern (self s)) (expected (self s))
                               (actual (self s)) (Some Dead))
                     (sink s) (env s)
      else s
  | _ => s
  end.

(** The invariant on [actual]: it is what the most recent call made by
    the matcher raised, and empty when that call returned or when
    nothing has been called yet. *)
Definition consistent (s : Machine) : Prop :=
  actual (self s) =
  match last (trace (env s)) with
  | Some ev => ev_outcome ev
  | None => None
  end.

(** The framework hands the matcher another description to write to. *)
Definition with_sink (d : Description) (s : Machine) : Machine :=
  mkMachine (self s) d (env s).

End Machine.

Arguments Machine U : clear implicits.
Arguments M U A : clear implicits.

#[global] Instance M_ret {U : Type} : MRet (M U) := fun A => @ret U A.
#[global] Instance M_bind {U : Type} : MBind (M U) :=
  fun A B k m => @bind U A B m k.

Section Matcher.

Context {U : Type}.

(** [re.search(pattern, text) is not None]; [Raise] when the engine
    rejects the pattern. *)
Variable re_search : string -> string -> res bool.

(** [Raises.__init__] *)
Definition __init__ (expected : string) (pattern : option string) : Raises :=
  {| pattern := pattern;
     expected := expected;
     actual := None;
     function := None |}.

Definition _call_function (function : PyObj U) : M U bool :=
  set_actual None ;;
  r ← try_ (call function) ;
  match r with
  | Raise e =>
      set_actual (Some e) ;;
      this ← get_self ;
      if isinstance e (expected this) then
        match pattern this with
        | Some p => lift (re_search p (exc_str e))
        | None => mret true
        end
      else mret false
  | Ok _ => mret false
  end.

Definition _matches (function : PyObj U) : M U bool :=
  if negb (obj_callable function) then mret false
  else
    r ← lift (ref function) ;
    set_function (Some r) ;;
    _call_function function.

Definition describe_to : M U unit :=
  this ← get_self ;
  append_text ("Expected a callable raising " +:+ class_str (expected this)).

(** The tail of [describe_mismatch], from [if self.actual is None] on. *)
Definition describe_actual : M U unit :=
  this ← get_self ;
  match actual this with
  | None => append_text "No exception raised."
  | Some a =>
      if isinstance a (expected this) then
        match pattern this with
        | Some p =>
            append_text
              ("Correct assertion type raised, but the expected pattern ("
               +:+ dq +:+ p +:+ dq +:+ ") not found. ") ;;
            append_text
              ("Exception message was: " +:+ dq +:+ exc_str a +:+ dq)
        | None => mret tt
        end
      else
        append_text
          (exc_repr a +:+ " of type " +:+ class_str (exc_class a)
           +:+ " was raised instead")
  end.

(** [function is None or function is not item] *)
Definition stale (function : option nat) (item : PyObj U) : bool :=
  match function with
  | None => true
  | Some o => negb (bool_decide (o = obj_id item))
  end.

Definition describe_mismatch (item : PyObj U) : M U unit :=
  if negb (obj_callable item) then
    text ← lift (format_s " is not callable" item) ;
    append_text text
  else
    this ← get_self ;
    let function :=
      match function this with
      | None => None
      | Some r => deref r
      end in
    if stale function item then
      r ← lift (ref item) ;
      set_function (Some r) ;;
      matched ← _call_function item ;
      if negb matched then mret tt
      else describe_actual
    else describe_actual.

Definition describe_match (item : PyObj U) : M U unit :=
  _call_function item ;;
  this ← get_self ;
  append_text (repr_opt (actual this) +:+ " of type "
               +:+ type_str_opt (actual this) +:+ " was raised.").

(** [raises(exception, pattern=None)] *)
Definition raises (exception : string) (pattern : option string) : Raises :=
  __init__ exception pattern.

End Matcher.

(* ===================================================================== *)
(** ** class DeferredCallable and calling *)
(* ===================================================================== *)

Section Deferred.

Context {U : Type}.

(** The fields of a [DeferredCallable]. *)
Record DeferredCallable : Type := mkDeferred {
  func : PyObj U;
  args : list PyVal;
  kwargs : gmap string PyVal
}.

(** [DeferredCallable] objects are mutable and handed around by
    reference: they live in a heap, addressed by their identity. *)
Record Runtime : Type := mkRuntime {
  heap : gmap nat DeferredCallable;
  outer : World U
}.

(** [DeferredCallable.__init__], on a newly allocated object. *)
Definition new_deferred (func : PyObj U) (rt : Runtime) : nat * Runtime :=
  let self := fresh (dom (heap rt)) in
  (self,
   {| heap := <[self := mkDeferred func [] ∅]> (heap rt);
      outer := outer rt |}).

(** [calling(func)] *)
Definition calling (func : PyObj U) (rt : Runtime) : nat * Runtime :=
  new_deferred func rt.

(** [self.with_args] with positional [args] and named [kwargs]; [None]
    when [self] is no object of the heap. *)
Definition with_args (self : nat) (args : list PyVal)
    (kwargs : gmap string PyVal) (rt : Runtime) : option (nat * Runtime) :=
  d ← heap rt !! self ;
  Some (self,
        {| heap := <[self := mkDeferred (func d) args kwargs]> (heap rt);
           outer := outer rt |}).

(** [self()]: the target's value is dropped, its exception is not. *)
Definition __call__ (self : nat) (rt : Runtime)
    : option (res PyVal * Runtime) :=
  d ← heap rt !! self ;
  let rw := call_in (func d) (args d) (kwargs d) (outer rt) in
  Some (match rw.1 with
        | Ok _ => Ok VNone
        | Raise e => Raise e
        end,
        {| heap := heap rt; outer := rw.2 |}).

End Deferred.

Arguments DeferredCallable U : clear implicits.
Arguments Runtime U : clear implicits.

(** A [DeferredCallable] object seen as any other object: it is callable,
    since its class defines [__call__], supports weak references as
    instances of ordinary classes do, and calling it without arguments
    runs [__call__], which drops the target's value.  [__call__] takes no
    argument besides [self]: called with any, Python raises a [TypeError]
    before the target is reached.  That error and the object's [str] are
    the interpreter's, and are taken as given. *)
Definition as_candidate {U : Type} (text : string) (misuse : PyExc)
    (self : nat) (d : DeferredCallable U) : PyObj U :=
  {| obj_id := self;
     obj_callable := true;
     obj_weakref := true;
     obj_tuple := None;
     obj_type := "DeferredCallable";
     obj_str := text;
     obj_call := fun a k u =>
       match a with
       | [] =>
           if decide (size k = 0) then
             let ru := apply_obj (func d) (args d) (kwargs d) u in
             (match ru.1 with
              | Ok _ => Ok VNone
              | Raise e => Raise e
              end, ru.2)
           else (Raise misuse, u)
       | _ :: _ => (Raise misuse, u)
       end |}.

(* ===================================================================== *)
(** ** Concrete candidates *)
(* ===================================================================== *)

Module Examples.

(** A regular-expression engine for patterns without metacharacters:
    searching for such a pattern is searching for it as a substring. *)
Definition literal_search (p s : string) : res bool :=
  Ok (match String.index 0 p s with
      | Some _ => true
      | None => false
      end).

Definition ValueError (msg : string) : PyExc :=
  {| exc_class := "ValueError";
     exc_mro := ["ValueError"; "Exception"; "BaseException"; "object"];
     exc_str := msg;
     exc_repr := "ValueError('" +:+ msg +:+ "')" |}.

Definition TypeError (msg : string) : PyExc :=
  {| exc_class := "TypeError";
     exc_mro := ["TypeError"; "Exception"; "BaseException"; "object"];
     exc_str := msg;
     exc_repr := "TypeError('" +:+ msg +:+ "')" |}.

(** The candidates below act on a counter, which they bump on every call. *)

(** [def f(): counter += 1; raise e] *)
Definition raiser (o : nat) (e : PyExc) : PyObj nat :=
  {| obj_id := o;
     obj_callable := true;
     obj_weakref := true;
     obj_tuple := None;
     obj_type := "function";
     obj_str := "<function raiser>";
     obj_call := fun _ _ n => (Raise e, S n) |}.

(** [def f(): counter += 1] *)
Definition quiet (o : nat) : PyObj nat :=
  {| obj_id := o;
     obj_callable := true;
     obj_weakref := true;
     obj_tuple := None;
     obj_type := "function";
     obj_str := "<function quiet>";
     obj_call := fun _ _ n => (Ok VNone, S n) |}.

(** The integer [5], which is not callable. *)
Definition five : PyObj nat :=
  {| obj_id := 5;
     obj_callable := false;
     obj_weakref := false;
     obj_tuple := None;
     obj_type := "int";
     obj_str := "5";
     obj_call := fun _ _ n => (Ok VNone, n) |}.

(** The tuple [(1, 2)], which is not callable either. *)
Definition pair : PyObj nat :=
  {| obj_id := 6;
     obj_callable := false;
     obj_weakref := false;
     obj_tuple := Some ["1"; "2"];
     obj_type := "tuple";
     obj_str := "(1, 2)";
     obj_call := fun _ _ n => (Ok VNone, n) |}.

(** The tuple [(5,)]. *)
Definition single : PyObj nat :=
  {| obj_id := 7;
     obj_callable := false;
     obj_weakref := false;
     obj_tuple := Some ["5"];
     obj_type := "tuple";
     obj_str := "(5,)";
     obj_call := fun _ _ n => (Ok VNone, n) |}.

(** An instance of a class with [__slots__ = ()] whose [__call__] bumps the
    counter and then returns or raises as [r] says: callable, but no weak
    reference to it can be made. *)
Definition slotted (o : nat) (r : res PyVal) : PyObj nat :=
  {| obj_id := o;
     obj_callable := true;
     obj_weakref := false;
     obj_tuple := None;
     obj_type := "C";
     obj_str := "<C object>";
     obj_call := fun _ _ n => (r, S n) |}.

(** [def f(a, b, key): counter += a + b; raise ValueError(key)], with
    the arguments an integer, an integer and a string. *)
Definition target : PyObj nat :=
  {| obj_id := 1;
     obj_callable := true;
     obj_weakref := true;
     obj_tuple := None;
     obj_type := "function";
     obj_str := "<function target>";
     obj_call := fun args kwargs n =>
       match args, kwargs !! "key" with
       | [VInt a; VInt b], Some (VStr k) =>
           (Raise (ValueError k), n + Z.to_nat a + Z.to_nat b)
       | _, _ => (Raise (TypeError "bad arguments"), n)
       end |}.

(** A matcher that has not been used yet, an empty description and a
    world in which nothing has been called. *)
Definition start (m : Raises) : Machine nat :=
  {| self := m; sink := EmptyString; env := {| store := 0; trace := [] |} |}.

Definition start_rt : Runtime nat :=
  {| heap := ∅; outer := {| store := 0; trace := [] |} |}.

End Examples.


(* ===================================================================== *)
(** ** Strings *)
(* ===================================================================== *)

Lemma append_assoc (a b c : string) : (a +:+ b) +:+ c = a +:+ b +:+ c.
Proof.
  induction a as [|x a IH]; [reflexivity|].
  change (String x (a +:+ b +:+ c)) with (String x a +:+ b +:+ c) in |- *.
  change ((String x a +:+ b) +:+ c) with (String x ((a +:+ b) +:+ c)).
  now rewrite IH.
Qed.

(* ===================================================================== *)
(** ** What one call of the candidate leaves behind *)
(* ===================================================================== *)

Section MatcherFacts.

Context {U : Type} (re_search : string -> string -> res bool).
Implicit Types (s : Machine U) (f item : PyObj U) (e : PyExc).

(** The verdict [_call_function] reaches on an outcome of the call. *)
Lemma _call_function_run f s :
  _call_function re_search f s =
  (match (call_in f [] ∅ (env s)).1 with
   | Ok _ => Ok false
   | Raise e =>
       if isinstance e (expected (self s)) then
         match pattern (self s) with
         | Some p => re_search p (exc_str e)
         | None => Ok true
         end
       else Ok false
   end,
   {| self := {| pattern := pattern (self s);
                 expected := expected (self s);
                 actual := outcome_of (call_in f [] ∅ (env s)).1;
                 function := function (self s) |};
      sink := sink s;
      env := (call_in f [] ∅ (env s)).2 |}).
Proof.
  unfold _call_function, mbind, M_bind, bind, mret, M_ret, ret, try_, call,
    set_actual, get_self, lift; simpl.
  destruct (apply_obj f [] ∅ (store (env s))) as [[v|e] u]; simpl;
    [reflexivity|].
  destruct (isinstance e (expected (self s))); [|reflexivity].
  destruct (pattern (self s)) as [p|]; [|reflexivity].
  destruct (re_search p (exc_str e)); reflexivity.
Qed.

Lemma call_in_callable f (w : World U) :
  obj_callable f = true ->
  call_in f [] ∅ w =
  ((obj_call f [] ∅ (store w)).1,
   {| store := (obj_call f [] ∅ (store w)).2;
      trace := trace w ++ [mkEvent (obj_id f) [] ∅
                             (outcome_of (obj_call f [] ∅ (store w)).1)] |}).
Proof. intros Hc. unfold call_in, apply_obj. now rewrite Hc. Qed.

(** [_matches] on a callable: the reference is stored, then the call is
    made and judged. *)
Lemma _matches_callable f s :
  obj_callable f = true ->
  obj_weakref f = true ->
  _matches re_search f s =
  _call_function re_search f
    {| self := {| pattern := pattern (self s);
                  expected := expected (self s);
                  actual := actual (self s);
                  function := Some (Live (obj_id f)) |};
       sink := sink s;
       env := env s |}.
Proof.
  intros Hc Hw. unfold _matches, ref. rewrite Hc, Hw. reflexivity.
Qed.

(** [_matches] on a callable to which no weak reference can be made: the
    [TypeError] of [ref] leaves before anything is stored or called. *)
Lemma _matches_no_weakref f s :
  obj_callable f = true ->
  obj_weakref f = false ->
  _matches re_search f s = (Raise (weakref_error f), s).
Proof.
  intros Hc Hw. unfold _matches, ref. rewrite Hc, Hw. reflexivity.
Qed.

(** After [_matches] on a callable the stored reference resolves to it. *)
Lemma _matches_function f s :
  obj_callable f = true ->
  obj_weakref f = true ->
  function (self (_matches re_search f s).2) = Some (Live (obj_id f)).
Proof.
  intros Hc Hw. rewrite (_matches_callable f s Hc Hw), _call_function_run.
  reflexivity.
Qed.

Lemma _matches_actual f s :
  obj_callable f = true ->
  obj_weakref f = true ->
  actual (self (_matches re_search f s).2)
  = outcome_of (obj_call f [] ∅ (store (env s))).1.
Proof.
  intros Hc Hw. rewrite (_matches_callable f s Hc Hw), _call_function_run.
  unfold call_in, apply_obj. simpl. now rewrite Hc.
Qed.

Lemma _matches_frame f s :
  obj_callable f = true ->
  obj_weakref f = true ->
  pattern (self (_matches re_search f s).2) = pattern (self s)
  /\ expected (self (_matches re_search f s).2) = expected (self s)
  /\ sink (_matches re_search f s).2 = sink s
  /\ env (_matches re_search f s).2 = (call_in f [] ∅ (env s)).2.
Proof.
  intros Hc Hw. rewrite (_matches_callable f s Hc Hw), _call_function_run.
  simpl. auto.
Qed.

(** [describe_mismatch] on the candidate the reference resolves to goes
    straight to the report on [actual]. *)
Lemma describe_mismatch_same item s :
  obj_callable item = true ->
  function (self s) = Some (Live (obj_id item)) ->
  describe_mismatch re_search item s = describe_actual s.
Proof.
  intros Hc Hf. unfold describe_mismatch. rewrite Hc. simpl.
  unfold mbind, M_bind, bind at 1, get_self. rewrite Hf. simpl.
  unfold stale. now rewrite bool_decide_eq_true_2.
Qed.

(** [describe_mismatch] on any other callable stores a reference to it,
    calls it, and reports only when that call matched. *)
Lemma describe_mismatch_stale item s :
  obj_callable item = true ->
  obj_weakref item = true ->
  stale (match function (self s) with
         | None => None
         | Some r => deref r
         end) item = true ->
  describe_mismatch re_search item s =
  (set_function (Some (Live (obj_id item))) ;;
   matched ← _call_function re_search item ;
   if negb matched then mret tt else describe_actual) s.
Proof.
  intros Hc Hw Hs. unfold describe_mismatch, ref. rewrite Hc, Hw. simpl.
  unfold mbind at 1, M_bind at 1, bind at 1, get_self. now rewrite Hs.
Qed.

(** On a stale reference and a callable to which no weak reference can be
    made, [describe_mismatch] raises the [TypeError] of [ref]: nothing is
    stored, called or appended. *)
Lemma describe_mismatch_no_weakref item s :
  obj_callable item = true ->
  obj_weakref item = false ->
  stale (match function (self s) with
         | None => None
         | Some r => deref r
         end) item = true ->
  describe_mismatch re_search item s = (Raise (weakref_error item), s).
Proof.
  intros Hc Hw Hs. unfold describe_mismatch, ref. rewrite Hc, Hw. simpl.
  unfold mbind at 1, M_bind at 1, bind at 1, get_self. now rewrite Hs.
Qed.

Lemma describe_actual_none s :
  actual (self s) = None ->
  describe_actual s = (Ok tt, with_sink (sink s +:+ "No exception raised.") s).
Proof.
  intros Ha. unfold describe_actual, mbind, M_bind, bind, get_self.
  now rewrite Ha.
Qed.

Lemma describe_actual_pattern s e p :
  actual (self s) = Some e ->
  isinstance e (expected (self s)) = true ->
  pattern (self s) = Some p ->
  describe_actual s =
  (Ok tt,
   with_sink
     ((sink s
       +:+ ("Correct assertion type raised, but the expected pattern ("
            +:+ dq +:+ p +:+ dq +:+ ") not found. "))
      +:+ ("Exception message was: " +:+ dq +:+ exc_str e +:+ dq)) s).
Proof.
  intros Ha Hi Hp. unfold describe_actual, mbind, M_bind, bind, get_self.
  now rewrite Ha, Hi, Hp.
Qed.

Lemma describe_actual_no_pattern s e :
  actual (self s) = Some e ->
  isinstance e (expected (self s)) = true ->
  pattern (self s) = None ->
  describe_actual s = (Ok tt, s).
Proof.
  intros Ha Hi Hp. unfold describe_actual, mbind, M_bind, bind, get_self.
  now rewrite Ha, Hi, Hp.
Qed.

Lemma describe_actual_other s e :
  actual (self s) = Some e ->
  isinstance e (expected (self s)) = false ->
  describe_actual s =
  (Ok tt,
   with_sink (sink s +:+ (exc_repr e +:+ " of type "
                          +:+ class_str (exc_class e)
                          +:+ " was raised instead")) s).
Proof.
  intros Ha Hi. unfold describe_actual, mbind, M_bind, bind, get_self.
  now rewrite Ha, Hi.
Qed.

(** [describe_actual] never raises and only writes to the description. *)
Lemma describe_actual_total s :
  exists t : string, describe_actual s = (Ok tt, with_sink (sink s +:+ t) s).
Proof.
  destruct (actual (self s)) as [e|] eqn:Ha.
  - destruct (isinstance e (expected (self s))) eqn:Hi.
    + destruct (pattern (self s)) as [p|] eqn:Hp.
      * eexists. rewrite (describe_actual_pattern s e p Ha Hi Hp).
        now rewrite append_assoc.
      * exists EmptyString. rewrite (describe_actual_no_pattern s e Ha Hi Hp).
        destruct s as [m d w]. unfold with_sink. simpl.
        f_equal. f_equal. clear. induction d as [|c d IH]; [reflexivity|].
        change (String c d +:+ EmptyString) with (String c (d +:+ EmptyString)).
        now rewrite <- IH.
    + eexists. apply (describe_actual_other s e Ha Hi).
  - eexists. apply (describe_actual_none s Ha).
Qed.

(** On a non-callable nothing is called: [_matches] returns false, and
    [describe_mismatch] appends the formatted text or raises what the
    formatting raised. *)
Lemma not_callable_sound f s :
  obj_callable f = false ->
  _matches re_search f s = (Ok false, s)
  /\ describe_mismatch re_search f s =
     match format_s " is not callable" f with
     | Ok text => (Ok tt, with_sink (sink s +:+ text) s)
     | Raise x => (Raise x, s)
     end.
Proof.
  intros Hc. unfold _matches, describe_mismatch. rewrite Hc.
  split; [reflexivity|].
  cbn [negb]. unfold mbind, M_bind, bind, lift.
  destruct (format_s " is not callable" f); reflexivity.
Qed.

(** An exception that leaves [_call_function] is the regular-expression
    engine's, raised while searching the text of the candidate's exception. *)
Lemma _call_function_raises f s x :
  (_call_function re_search f s).1 = Raise x ->
  exists e p,
    (apply_obj f [] ∅ (store (env s))).1 = Raise e
    /\ pattern (self s) = Some p
    /\ re_search p (exc_str e) = Raise x.
Proof.
  rewrite _call_function_run. unfold call_in. cbn [fst].
  destruct (apply_obj f [] ∅ (store (env s))).1 as [v|e]; [discriminate|].
  destruct (isinstance e (expected (self s))); [|discriminate].
  destruct (pattern (self s)) as [p|]; [|discriminate].
  intros H. now exists e, p.
Qed.

(** On a stale reference whose fresh call does not match,
    [describe_mismatch] returns without a word. *)
Lemma reinvocation_mismatch_silent item s :
  obj_callable item = true ->
  obj_weakref item = true ->
  stale (match function (self s) with
         | None => None
         | Some r => deref r
         end) item = true ->
  (_call_function re_search item s).1 = Ok false ->
  sink (describe_mismatch re_search item s).2 = sink s.
Proof.
  intros Hc Hw Hst Hr. rewrite (describe_mismatch_stale item s Hc Hw Hst).
  unfold mbind, M_bind, bind. cbn [set_function].
  set (s' := mkMachine _ _ _).
  assert (Hr' : (_call_function re_search item s').1 = Ok false).
  { rewrite _call_function_run in Hr |- *. exact Hr. }
  assert (Hk : sink (_call_function re_search item s').2 = sink s).
  { rewrite _call_function_run. reflexivity. }
  destruct (_call_function re_search item s') as [r s''].
  cbn [fst snd] in *. subst r. exact Hk.
Qed.

(** On a stale reference whose fresh call does match a given pattern,
    [describe_mismatch] goes on to report that the pattern was not found. *)
Lemma reinvocation_match_reports item s e p :
  obj_callable item = true ->
  obj_weakref item = true ->
  stale (match function (self s) with
         | None => None
         | Some r => deref r
         end) item = true ->
  (obj_call item [] ∅ (store (env s))).1 = Raise e ->
  isinstance e (expected (self s)) = true ->
  pattern (self s) = Some p ->
  re_search p (exc_str e) = Ok true ->
  sink (describe_mismatch re_search item s).2 =
  (sink s
   +:+ ("Correct assertion type raised, but the expected pattern ("
        +:+ dq +:+ p +:+ dq +:+ ") not found. "))
  +:+ ("Exception message was: " +:+ dq +:+ exc_str e +:+ dq).
Proof.
  intros Hc Hw Hst He Hi Hp Hs.
  rewrite (describe_mismatch_stale item s Hc Hw Hst).
  unfold mbind, M_bind, bind. cbn [set_function].
  rewrite _call_function_run. cbn [self env pattern expected sink].
  rewrite (call_in_callable item (env s) Hc). cbn [fst snd].
  rewrite He, Hi, Hp, Hs. cbn [negb outcome_of].
  rewrite (describe_actual_pattern _ e p); [reflexivity| | |];
    cbn [self actual expected pattern]; first [reflexivity | assumption].
Qed.

(** The three ways a reference fails to resolve to [item]: none stored,
    referent collected, or another object. *)
Lemma stale_cases item (r : option weakref) :
  stale (match r with
         | None => None
         | Some w => deref w
         end) item = true
  <-> r = None \/ r = Some Dead
      \/ exists o, r = Some (Live o) /\ o <> obj_id item.
Proof.
  unfold stale. destruct r as [[o|]|]; cbn [deref].
  - rewrite negb_true_iff, bool_decide_eq_false. split.
    + intros Ho. right. right. now exists o.
    + intros [H | [H | (o' & [= ->] & Ho)]]; [discriminate..|exact Ho].
  - split; [auto|reflexivity].
  - split; [auto|reflexivity].
Qed.

(** Once the candidate checked by [_matches] has been collected, the
    reference is dead, and whatever is described next is called afresh. *)
Lemma stale_after_collect f item s :
  obj_callable f = true ->
  obj_weakref f = true ->
  stale (match function (self (collect (obj_id f)
                                 (_matches re_search f s).2)) with
         | None => None
         | Some w => deref w
         end) item = true.
Proof.
  intros Hc Hw. unfold collect.
  rewrite (_matches_function f s Hc Hw).
  destruct (decide (obj_id f = obj_id f)) as [_|Hn]; [reflexivity|].
  now destruct Hn.
Qed.

(** On a stale reference [describe_mismatch] calls the candidate with the
    capture logic of [_matches]: the reference now points to it, [actual]
    is the outcome of the call, and the call is in the world. *)
Lemma describe_mismatch_reinvokes item s :
  obj_callable item = true ->
  obj_weakref item = true ->
  stale (match function (self s) with
         | None => None
         | Some r => deref r
         end) item = true ->
  function (self (describe_mismatch re_search item s).2)
  = Some (Live (obj_id item))
  /\ actual (self (describe_mismatch re_search item s).2)
     = outcome_of (obj_call item [] ∅ (store (env s))).1
  /\ env (describe_mismatch re_search item s).2
     = (call_in item [] ∅ (env s)).2.
Proof.
  intros Hc Hw Hst. rewrite (describe_mismatch_stale item s Hc Hw Hst).
  unfold mbind, M_bind, bind. cbn [set_function].
  rewrite _call_function_run. cbn [self env pattern expected sink function].
  rewrite (call_in_callable item (env s) Hc). cbn [fst snd].
  set (v := match (obj_call item [] ∅ (store (env s))).1 with
            | Ok _ => Ok false
            | Raise e => _
            end).
  destruct v as [[|]|x]; cbn [negb snd]; try (repeat split; reflexivity).
  match goal with
  | |- context [describe_actual ?m] =>
      destruct (describe_actual_total m) as [t ->]
  end.
  repeat split; reflexivity.
Qed.

(** [describe_match] returns exactly when its call step does. *)
Lemma describe_match_run' item s :
  (describe_match re_search item s).1 =
  match (_call_function re_search item s).1 with
  | Ok _ => Ok tt
  | Raise x => Raise x
  end.
Proof.
  unfold describe_match, mbind, M_bind, bind.
  destruct (_call_function re_search item s) as [[b|x] s']; reflexivity.
Qed.

(** The three ways [_matches] can go. *)
Lemma _matches_cases f s :
  (obj_callable f = false /\ _matches re_search f s = (Ok false, s))
  \/ (obj_callable f = true /\ obj_weakref f = false
      /\ _matches re_search f s = (Raise (weakref_error f), s))
  \/ (obj_callable f = true /\ obj_weakref f = true
      /\ _matches re_search f s =
         _call_function re_search f
           {| self := {| pattern := pattern (self s);
                         expected := expected (self s);
                         actual := actual (self s);
                         function := Some (Live (obj_id f)) |};
              sink := sink s;
              env := env s |}).
Proof.
  destruct (obj_callable f) eqn:Hc.
  - destruct (obj_weakref f) eqn:Hw.
    + right. right. auto using _matches_callable.
    + right. left. auto using _matches_no_weakref.
  - left. split; [reflexivity|]. apply (not_callable_sound f s Hc).
Qed.

(** The ways [describe_mismatch] can go: on a non-callable it formats and
    appends, or raises what the formatting raised; on the candidate the
    reference resolves to it reports on [actual]; on any other callable it
    raises what [ref] raised, or calls the candidate and then stops, on a
    raised exception or a call that did not match, or reports. *)
Lemma describe_mismatch_cases item s :
  (exists text, describe_mismatch re_search item s
                = (Ok tt, with_sink (sink s +:+ text) s))
  \/ (exists x, describe_mismatch re_search item s = (Raise x, s)
                /\ ((obj_callable item = false
                     /\ format_s " is not callable" item = Raise x)
                    \/ (obj_callable item = true
                        /\ obj_weakref item = false
                        /\ ref item = Raise x)))
  \/ (obj_callable item = true /\ obj_weakref item = true /\
      exists s',
        s' = {| self := {| pattern := pattern (self s);
                           expected := expected (self s);
                           actual := actual (self s);
                           function := Some (Live (obj_id item)) |};
                sink := sink s;
                env := env s |}
        /\ ((exists x, (_call_function re_search item s').1 = Raise x
                       /\ describe_mismatch re_search item s
                          = (Raise x, (_call_function re_search item s').2))
            \/ ((_call_function re_search item s').1 = Ok false
                /\ describe_mismatch re_search item s
                   = (Ok tt, (_call_function re_search item s').2))
            \/ ((_call_function re_search item s').1 = Ok true
                /\ exists text,
                     describe_mismatch re_search item s
                     = (Ok tt,
                        with_sink
                          (sink (_call_function re_search item s').2
                           +:+ text)
                          (_call_function re_search item s').2)))).
Proof.
  destruct (obj_callable item) eqn:Hc.
  - destruct (stale (match function (self s) with
                     | None => None
                     | Some r => deref r
                     end) item) eqn:Hst.
    + destruct (obj_weakref item) eqn:Hw.
      * right. right. split; [reflexivity|]. split; [reflexivity|].
        eexists. split; [reflexivity|].
        rewrite (describe_mismatch_stale item s Hc Hw Hst).
        unfold mbind, M_bind, bind. cbn [set_function].
        destruct (_call_function re_search item _) as [[[|]|x] s''];
          cbn [fst snd negb].
        -- right. right. split; [reflexivity|].
           destruct (describe_actual_total s'') as [t Ht].
           exists t. exact Ht.
        -- right. left. split; reflexivity.
        -- left. exists x. split; reflexivity.
      * right. left. exists (weakref_error item).
        split; [apply (describe_mismatch_no_weakref item s Hc Hw Hst)|].
        right. unfold ref. rewrite Hw. auto.
    + left. unfold stale in Hst.
      destruct (function (self s)) as [[o|]|] eqn:Hf;
        cbn [deref] in Hst; try discriminate.
      apply negb_false_iff, bool_decide_eq_true_1 in Hst. subst o.
      rewrite (describe_mismatch_same item s Hc Hf).
      apply describe_actual_total.
  - rewrite (proj2 (not_callable_sound item s Hc)).
    destruct (format_s " is not callable" item) as [t|x] eqn:Hfmt.
    + left. exists t. reflexivity.
    + right. left. exists x. split; [reflexivity|]. left. auto.
Qed.

End MatcherFacts.

(* ===================================================================== *)
(** ** The matcher's contract *)
(* ===================================================================== *)

Section MatcherClaims.

Context {U : Type} (re_search : string -> string -> res bool).
Implicit Types (s : Machine U) (f item : PyObj U) (e : PyExc)
  (d : Description).

(** X20.  For a callable candidate to which a weak reference can be made,
    [_matches] returns true exactly when
    calling the candidate raises an instance of the expected class and
    either no pattern was given or the regular-expression search of the
    pattern in the text of the exception succeeds.  It returns false when
    the call raises nothing, when the exception is of another class, and
    when the pattern is not found. *)
Theorem matches_iff_expected_error f s :
  obj_callable f = true ->
  obj_weakref f = true ->
  let out := (obj_call f [] ∅ (store (env s))).1 in
  let K := expected (self s) in
  ((_matches re_search f s).1 = Ok true <->
   exists e,
     out = Raise e /\ isinstance e K = true /\
     (pattern (self s) = None \/
      exists p, pattern (self s) = Some p
                /\ re_search p (exc_str e) = Ok true))
  /\ ((exists v, out = Ok v) -> (_matches re_search f s).1 = Ok false)
  /\ (forall e, out = Raise e -> isinstance e K = false ->
                (_matches re_search f s).1 = Ok false)
  /\ (forall e p, out = Raise e -> pattern (self s) = Some p ->
                  re_search p (exc_str e) = Ok false ->
                  (_matches re_search f s).1 = Ok false).
Proof.
  intros Hc Hw out K.
  rewrite (_matches_callable re_search f s Hc Hw), _call_function_run.
  cbn [fst snd self env expected pattern].
  rewrite (call_in_callable f (env s) Hc). cbn [fst]. fold out. fold K.
  repeat split.
  - destruct out as [v|e]; [discriminate|].
    intros H. exists e. split; [reflexivity|].
    destruct (isinstance e K); [|discriminate]. split; [reflexivity|].
    destruct (pattern (self s)) as [p|]; [right|left; reflexivity].
    exists p. split; [reflexivity|exact H].
  - intros (e & -> & -> & [-> | (p & -> & Hp)]); [reflexivity|exact Hp].
  - intros [v ->]. reflexivity.
  - intros e -> ->. reflexivity.
  - intros e p -> -> Hp. now destruct (isinstance e K).
Qed.

(** X21.  On a candidate that is neither callable nor a tuple,
    [_matches] returns false at once: it raises nothing and calls nothing,
    leaving matcher and world as they were.  [describe_mismatch] appends
    the candidate's text followed by [ is not callable] and returns,
    calling nothing either. *)
Theorem not_callable_no_invocation f s :
  obj_callable f = false ->
  obj_tuple f = None ->
  _matches re_search f s = (Ok false, s)
  /\ describe_mismatch re_search f s =
     (Ok tt,
      {| self := self s;
         sink := sink s +:+ obj_str f +:+ " is not callable";
         env := env s |}).
Proof.
  intros Hc Ht.
  destruct (not_callable_sound re_search f s Hc) as [Hm Hd].
  split; [exact Hm|]. rewrite Hd. unfold format_s. now rewrite Ht.
Qed.

(** X22.  When calling a callable candidate, one to which a weak reference
    can be made, raises nothing, [_matches] returns false, and
    [describe_mismatch] on that candidate then appends exactly [No
    exception raised.] to the description it is given. *)
Theorem no_exception_raised f s d :
  obj_callable f = true ->
  obj_weakref f = true ->
  (exists v, (obj_call f [] ∅ (store (env s))).1 = Ok v) ->
  (_matches re_search f s).1 = Ok false
  /\ describe_mismatch re_search f (with_sink d (_matches re_search f s).2)
     = (Ok tt,
        with_sink (d +:+ "No exception raised.") (_matches re_search f s).2).
Proof.
  intros Hc Hw [v Hv]. split.
  - rewrite (_matches_callable re_search f s Hc Hw), _call_function_run.
    cbn [fst env]. rewrite (call_in_callable f (env s) Hc). cbn [fst].
    now rewrite Hv.
  - rewrite describe_mismatch_same;
      [|exact Hc|apply (_matches_function re_search f s Hc Hw)].
    rewrite describe_actual_none; [reflexivity|].
    cbn [with_sink self]. rewrite (_matches_actual re_search f s Hc Hw).
    now rewrite Hv.
Qed.

(** C4.  When the exception captured by [_matches] is an instance of the
    expected class, a pattern was given and the search does not find it
    in the text of the exception, [describe_mismatch] on the same
    candidate appends the two parts [Correct assertion type raised, but
    the expected pattern (<pattern>) not found. ] and [Exception message
    was: <text>], pattern and text each between double quotes; the
    description so contains both the pattern and the text. *)
Theorem pattern_not_found_message f s d e p :
  obj_callable f = true ->
  obj_weakref f = true ->
  (obj_call f [] ∅ (store (env s))).1 = Raise e ->
  isinstance e (expected (self s)) = true ->
  pattern (self s) = Some p ->
  re_search p (exc_str e) = Ok false ->
  let s1 := (_matches re_search f s).2 in
  let part1 :=
    "Correct assertion type raised, but the expected pattern ("
    +:+ dq +:+ p +:+ dq +:+ ") not found. " in
  let part2 := "Exception message was: " +:+ dq +:+ exc_str e +:+ dq in
  (_matches re_search f s).1 = Ok false
  /\ describe_mismatch re_search f (with_sink d s1)
     = (Ok tt, with_sink ((d +:+ part1) +:+ part2) s1)
  /\ contains ((d +:+ part1) +:+ part2) p
  /\ contains ((d +:+ part1) +:+ part2) (exc_str e).
Proof.
  intros Hc Hw He Hi Hp Hs s1 part1 part2.
  destruct (_matches_frame re_search f s Hc Hw) as (Fp & Fe & _ & _).
  pose proof (_matches_actual re_search f s Hc Hw) as Fa.
  rewrite He in Fa. cbn [outcome_of] in Fa.
  repeat split.
  - rewrite (_matches_callable re_search f s Hc Hw), _call_function_run.
    cbn [fst env self expected pattern].
    rewrite (call_in_callable f (env s) Hc). cbn [fst].
    now rewrite He, Hi, Hp.
  - rewrite describe_mismatch_same;
      [|exact Hc|apply (_matches_function re_search f s Hc Hw)].
    rewrite (describe_actual_pattern (with_sink d s1) e p);
      [reflexivity| | |]; cbn [with_sink self]; unfold s1.
    + exact Fa.
    + now rewrite Fe.
    + now rewrite Fp.
  - unfold part1.
    exists (d +:+ "Correct assertion type raised, but the expected pattern ("
              +:+ dq),
           (dq +:+ ") not found. " +:+ part2).
    now rewrite !append_assoc.
  - unfold part2.
    exists ((d +:+ part1) +:+ "Exception message was: " +:+ dq), dq.
    now rewrite !append_assoc.
Qed.

(** C10.  When the exception captured by [_matches] is an instance of the
    expected class and no pattern was given, [describe_mismatch] on the
    same candidate appends nothing: the description is left as it was. *)
Theorem expected_kind_no_pattern_silent f s d e :
  obj_callable f = true ->
  obj_weakref f = true ->
  (obj_call f [] ∅ (store (env s))).1 = Raise e ->
  isinstance e (expected (self s)) = true ->
  pattern (self s) = None ->
  let s1 := (_matches re_search f s).2 in
  describe_mismatch re_search f (with_sink d s1) = (Ok tt, with_sink d s1).
Proof.
  intros Hc Hw He Hi Hp s1.
  destruct (_matches_frame re_search f s Hc Hw) as (Fp & Fe & _ & _).
  pose proof (_matches_actual re_search f s Hc Hw) as Fa.
  rewrite He in Fa. cbn [outcome_of] in Fa.
  rewrite describe_mismatch_same;
    [|exact Hc|apply (_matches_function re_search f s Hc Hw)].
  apply (describe_actual_no_pattern (with_sink d s1) e);
    cbn [with_sink self]; unfold s1.
  - exact Fa.
  - now rewrite Fe.
  - now rewrite Fp.
Qed.

(** C5.  [describe_mismatch] right after a failing [_matches], on the
    identical candidate, does not call the candidate again: the world is
    as [_matches] left it, the captured exception is the one [_matches]
    stored, and over the two operations together the candidate was called
    exactly once. *)
Theorem describe_mismatch_reuses_error f s d :
  obj_callable f = true ->
  (_matches re_search f s).1 = Ok false ->
  let once := obj_call f [] ∅ (store (env s)) in
  let s1 := (_matches re_search f s).2 in
  let s2 := (describe_mismatch re_search f (with_sink d s1)).2 in
  env s2 = env s1
  /\ actual (self s2) = actual (self s1)
  /\ actual (self s1) = outcome_of once.1
  /\ store (env s2) = once.2
  /\ trace (env s2)
     = trace (env s) ++ [mkEvent (obj_id f) [] ∅ (outcome_of once.1)]
  /\ calls_of (obj_id f) (trace (env s2))
     = S (calls_of (obj_id f) (trace (env s))).
Proof.
  intros Hc Hfalse once s1 s2.
  assert (Hw : obj_weakref f = true).
  { destruct (obj_weakref f) eqn:E; [reflexivity|].
    rewrite (_matches_no_weakref re_search f s Hc E) in Hfalse.
    discriminate. }
  assert (Hs2 : env s2 = env s1 /\ self s2 = self s1).
  { unfold s2. rewrite describe_mismatch_same;
      [|exact Hc|apply (_matches_function re_search f s Hc Hw)].
    destruct (describe_actual_total (with_sink d s1)) as [t ->].
    split; reflexivity. }
  destruct Hs2 as [Henv Hself].
  destruct (_matches_frame re_search f s Hc Hw) as (_ & _ & _ & Fw).
  fold s1 in Fw. rewrite (call_in_callable f (env s) Hc) in Fw.
  cbn [snd] in Fw. fold once in Fw.
  rewrite Henv, Hself, Fw. cbn [store trace].
  repeat split.
  - apply (_matches_actual re_search f s Hc Hw).
  - unfold calls_of. rewrite filter_app, length_app.
    rewrite filter_cons_True by reflexivity. simpl. lia.
Qed.

(** C9.  The invariant that [actual] is what the most recent call made
    by the matcher raised, and is empty when that call returned, is kept
    by [_matches], [describe_mismatch] and [describe_match].  Every call
    step establishes it: [actual] is reset, the call is made, and
    [actual] is then exactly the exception of that call, so an exception
    of the most recent call is never reported as absent. *)
Theorem actual_tracks_last_call f s :
  consistent s ->
  consistent (_matches re_search f s).2
  /\ consistent (describe_mismatch re_search f s).2
  /\ consistent (describe_match re_search f s).2
  /\ consistent (_call_function re_search f s).2
  /\ actual (self (_call_function re_search f s).2)
     = outcome_of (apply_obj f [] ∅ (store (env s))).1
  /\ (forall e, (apply_obj f [] ∅ (store (env s))).1 = Raise e ->
                actual (self (_call_function re_search f s).2) = Some e).
Proof.
  intros Hs.
  assert (Hcall : forall s', consistent (_call_function re_search f s').2).
  { intros s'. rewrite _call_function_run. unfold consistent, call_in.
    cbn [snd fst self env actual trace]. now rewrite last_snoc. }
  repeat split.
  - destruct (_matches_cases re_search f s)
      as [(_ & ->) | [(_ & _ & ->) | (_ & _ & ->)]];
      [exact Hs|exact Hs|apply Hcall].
  - destruct (describe_mismatch_cases re_search f s)
      as [(t & ->) | [(x & -> & _) | (_ & _ & s' & _ & Hr)]];
      [exact Hs|exact Hs|].
    destruct Hr as [(x & _ & ->) | [(_ & ->) | (_ & t & ->)]];
      apply Hcall.
  - unfold describe_match, mbind, M_bind, bind.
    pose proof (Hcall s) as Hc'.
    destruct (_call_function re_search f s) as [[b|x] s'];
      cbn [snd] in *; exact Hc'.
  - apply Hcall.
  - rewrite _call_function_run. reflexivity.
  - intros e He. rewrite _call_function_run. cbn [snd self actual fst call_in].
    now rewrite He.
Qed.

(** C6.  An exception raised by the candidate is caught inside the
    matcher.  Whatever leaves [_matches], [describe_mismatch] or
    [describe_match] as an exception was not raised by the candidate: it
    is the regular-expression engine's, or the one [ref] raised on an
    object without weak references, or the one the formatting raised on a
    tuple; the last two leave before anything is called.  Where none of
    the three arises, all three operations return normally.  Of the
    candidate's exception [_matches] leaves only the boolean it returns
    and the field [actual]: the description is untouched, and so are
    pattern and expected class. *)
Theorem candidate_errors_absorbed f s e :
  (apply_obj f [] ∅ (store (env s))).1 = Raise e ->
  (forall x,
      (_matches re_search f s).1 = Raise x
      \/ (describe_mismatch re_search f s).1 = Raise x
      \/ (describe_match re_search f s).1 = Raise x ->
      (exists p, pattern (self s) = Some p
                 /\ re_search p (exc_str e) = Raise x)
      \/ ref f = Raise x
      \/ format_s " is not callable" f = Raise x)
  /\ ((forall p, pattern (self s) = Some p ->
                 exists b, re_search p (exc_str e) = Ok b) ->
      (obj_callable f = true -> obj_weakref f = true) ->
      (obj_callable f = false -> obj_tuple f = None) ->
      (exists b, (_matches re_search f s).1 = Ok b)
      /\ (describe_mismatch re_search f s).1 = Ok tt
      /\ (describe_match re_search f s).1 = Ok tt)
  /\ (obj_callable f = true ->
      obj_weakref f = true ->
      (_matches re_search f s).2 =
      {| self := {| pattern := pattern (self s);
                    expected := expected (self s);
                    actual := Some e;
                    function := Some (Live (obj_id f)) |};
         sink := sink s;
         env := (call_in f [] ∅ (env s)).2 |})
  /\ actual (self (describe_match re_search f s).2) = Some e.
Proof.
  intros He.
  assert (Hcf : forall s' x,
             store (env s') = store (env s) ->
             pattern (self s') = pattern (self s) ->
             (_call_function re_search f s').1 = Raise x ->
             exists p, pattern (self s) = Some p
                       /\ re_search p (exc_str e) = Raise x).
  { intros s' x Hst Hpat Hx.
    destruct (_call_function_raises re_search f s' x Hx) as (e' & p & E1 & E2 & E3).
    rewrite Hst, He in E1. injection E1 as <-. rewrite Hpat in E2. eauto. }
  assert (Hesc : forall x,
             (_matches re_search f s).1 = Raise x
             \/ (describe_mismatch re_search f s).1 = Raise x
             \/ (describe_match re_search f s).1 = Raise x ->
             (exists p, pattern (self s) = Some p
                        /\ re_search p (exc_str e) = Raise x)
             \/ ref f = Raise x
             \/ format_s " is not callable" f = Raise x).
  { intros x [Hx | [Hx | Hx]].
    - destruct (_matches_cases re_search f s)
        as [(_ & E) | [(_ & Hw & E) | (_ & _ & E)]]; rewrite E in Hx.
      + discriminate.
      + right. left. injection Hx as <-. unfold ref. now rewrite Hw.
      + left. refine (Hcf _ x _ _ Hx); reflexivity.
    - destruct (describe_mismatch_cases re_search f s)
        as [(t & E) | [(y & E & Hy) | (_ & _ & s' & -> & Hr)]].
      + rewrite E in Hx. discriminate.
      + rewrite E in Hx. injection Hx as ->. right.
        destruct Hy as [(_ & Hy) | (_ & _ & Hy)]; [right|left]; exact Hy.
      + destruct Hr as [(y & Hy & E) | [(_ & E) | (_ & t & E)]];
          rewrite E in Hx; try discriminate.
        injection Hx as ->. left. refine (Hcf _ x _ _ Hy); reflexivity.
    - left. unfold describe_match, mbind, M_bind, bind in Hx.
      pose proof (Hcf s) as Hs'.
      destruct (_call_function re_search f s) as [[b|y] s'']; cbn [fst] in *.
      + discriminate.
      + injection Hx as ->. exact (Hs' x eq_refl eq_refl eq_refl). }
  split; [exact Hesc|]. split; [|split].
  - intros Hre Hcw Hct.
    assert (Hok : forall s',
               store (env s') = store (env s) ->
               pattern (self s') = pattern (self s) ->
               exists b, (_call_function re_search f s').1 = Ok b).
    { intros s' Hst Hpat.
      destruct (_call_function re_search f s').1 as [b|x] eqn:E; [eauto|].
      destruct (Hcf s' x Hst Hpat E) as (p & Hp & Hr).
      destruct (Hre p Hp) as [b Hb]. congruence. }
    split; [|split].
    + destruct (_matches_cases re_search f s)
        as [(_ & E) | [(Hc & Hw & _) | (_ & _ & E)]].
      * rewrite E. eauto.
      * rewrite (Hcw Hc) in Hw. discriminate.
      * rewrite E. apply Hok; reflexivity.
    + destruct (describe_mismatch_cases re_search f s)
        as [(t & E) | [(y & E & Hy) | (_ & _ & s' & -> & Hr)]].
      * rewrite E. reflexivity.
      * exfalso. destruct Hy as [(Hc & Hy) | (Hc & Hw & _)].
        -- unfold format_s in Hy. rewrite (Hct Hc) in Hy. discriminate.
        -- rewrite (Hcw Hc) in Hw. discriminate.
      * destruct Hr as [(y & Hy & _) | [(_ & E) | (_ & t & E)]];
          [|rewrite E; reflexivity..].
        exfalso.
        match type of Hy with
        | (_call_function _ _ ?m).1 = _ =>
            destruct (Hok m eq_refl eq_refl) as [b Hb]
        end.
        congruence.
    + rewrite describe_match_run'.
      destruct (Hok s eq_refl eq_refl) as [b ->]. reflexivity.
  - intros Hc Hw.
    rewrite (_matches_callable re_search f s Hc Hw), _call_function_run.
    cbn [snd self env pattern expected function sink fst call_in].
    now rewrite He.
  - unfold describe_match, mbind, M_bind, bind.
    pose proof (_call_function_run re_search f s) as Hrun.
    destruct (_call_function re_search f s) as [[b|y] s''];
      injection Hrun as _ ->; cbn [snd self actual append_text get_self fst call_in];
      now rewrite He.
Qed.

End MatcherClaims.

(* ===================================================================== *)
(** ** describe_mismatch on a candidate not checked before *)
(* ===================================================================== *)

(** C2.  A matcher for [ValueError] with pattern [bad] that has checked
    nothing yet is asked to describe the mismatch of a candidate raising
    [ValueError] with text [this is bad input].  The stored reference is
    absent, so the candidate is called: once, the reference and [actual]
    are updated, and the call satisfies the match.  The description does
    not stay empty: it is told that the pattern was not found. *)
Theorem describe_mismatch_fresh_match_appends :
  let c := Examples.raiser 1 (Examples.ValueError "this is bad input") in
  let s := Examples.start (raises "ValueError" (Some "bad")) in
  let s' := (describe_mismatch Examples.literal_search c s).2 in
  function (self s) = None
  /\ (_call_function Examples.literal_search c s).1 = Ok true
  /\ calls_of 1 (trace (env s')) = 1
  /\ function (self s') = Some (Live 1)
  /\ actual (self s') = Some (Examples.ValueError "this is bad input")
  /\ sink s = EmptyString
  /\ sink s' =
     ("Correct assertion type raised, but the expected pattern ("
      +:+ dq +:+ "bad" +:+ dq +:+ ") not found. ")
     +:+ ("Exception message was: " +:+ dq +:+ "this is bad input" +:+ dq)
  /\ sink s' <> sink s.
Proof.
  cbv zeta. repeat split; try reflexivity.
  vm_compute. discriminate.
Qed.

(* ===================================================================== *)
(** ** Candidates the matcher does not cope with *)
(* ===================================================================== *)

(** C1.  A matcher for [ValueError] without pattern checks an instance of
    a class with [__slots__] whose [__call__] raises [ValueError].  The
    candidate is callable and calling it raises what is expected, yet
    [_matches] does not return true: [ref] raises [TypeError] before the
    candidate is called, and that exception leaves [_matches], which has
    stored and called nothing. *)
Theorem matches_raises_without_weak_reference :
  let c := Examples.slotted 1 (Raise (Examples.ValueError "x")) in
  let s := Examples.start (raises "ValueError" None) in
  obj_callable c = true
  /\ (obj_call c [] ∅ (store (env s))).1 = Raise (Examples.ValueError "x")
  /\ isinstance (Examples.ValueError "x") (expected (self s)) = true
  /\ pattern (self s) = None
  /\ _matches Examples.literal_search c s = (Raise (weakref_error c), s)
  /\ exc_str (weakref_error c) = "cannot create weak reference to 'C' object"
  /\ (_matches Examples.literal_search c s).1 <> Ok true.
Proof.
  cbv zeta. repeat split; try reflexivity.
  vm_compute. discriminate.
Qed.

(** C3.  A matcher that has checked nothing yet is asked to describe the
    mismatch of a candidate whose call returns.  The candidate is called,
    once, and raises nothing; [actual] is empty; and [describe_mismatch]
    returns having appended nothing, where [No exception raised.] was due:
    the call did not match, and on that the guard returns.  Checked first
    by [_matches], the same candidate gets the text.  A candidate that
    returns but supports no weak reference makes [_matches] raise. *)
Theorem describe_mismatch_fresh_no_exception_silent :
  let c := Examples.quiet 1 in
  let s := Examples.start (raises "ValueError" None) in
  let s' := (describe_mismatch Examples.literal_search c s).2 in
  let checked := (_matches Examples.literal_search c s).2 in
  obj_callable c = true
  /\ (obj_call c [] ∅ (store (env s))).1 = Ok VNone
  /\ function (self s) = None
  /\ (describe_mismatch Examples.literal_search c s).1 = Ok tt
  /\ calls_of 1 (trace (env s')) = 1
  /\ actual (self s') = None
  /\ sink s' = sink s
  /\ sink (describe_mismatch Examples.literal_search c checked).2
     = "No exception raised."
  /\ _matches Examples.literal_search (Examples.slotted 2 (Ok VNone)) s
     = (Raise (weakref_error (Examples.slotted 2 (Ok VNone))), s).
Proof.
  cbv zeta. repeat split; reflexivity.
Qed.

(** C7.  The tuple [(1, 2)] is not callable.  [_matches] returns false at
    once and calls nothing.  [describe_mismatch] does not append the text
    of the candidate followed by [ is not callable]: the [%] operator
    takes the tuple for two arguments to a format with one place and
    raises [TypeError], and nothing is appended.  For the tuple [(5,)] the
    text appended is that of its element, [5 is not callable]. *)
Theorem describe_mismatch_tuple_raises :
  let s := Examples.start (raises "ValueError" None) in
  obj_callable Examples.pair = false
  /\ obj_str Examples.pair = "(1, 2)"
  /\ _matches Examples.literal_search Examples.pair s = (Ok false, s)
  /\ describe_mismatch Examples.literal_search Examples.pair s
     = (Raise (format_error
                 "not all arguments converted during string formatting"), s)
  /\ obj_str Examples.single = "(5,)"
  /\ sink (describe_mismatch Examples.literal_search Examples.single s).2
     = "5 is not callable".
Proof.
  cbv zeta. repeat split; reflexivity.
Qed.

(* ===================================================================== *)
(** ** The deferred call's contract *)
(* ===================================================================== *)

Section DeferredClaims.

Context {U : Type}.
Implicit Types (f : PyObj U) (rt : Runtime U) (a : list PyVal)
  (k : gmap string PyVal).

(** [calling] allocates: the object it returns was not in the heap. *)
Lemma calling_fresh f rt : heap rt !! (calling f rt).1 = None.
Proof.
  unfold calling, new_deferred. cbn [fst].
  apply not_elem_of_dom, is_fresh.
Qed.

(** C8.  [calling(f).with_args] with positional arguments [a] and named
    arguments [k] records exactly [a] and [k] in the object made by
    [calling] and returns that same object; no other object changes and
    nothing is called yet.  Calling the object then calls [f] exactly once,
    with exactly [a] and [k]; an exception raised by [f] reaches the caller
    as it is, and a normal return yields [None]. *)
Theorem calling_with_args_invokes_once f a k rt :
  let d := (calling f rt).1 in
  let rt1 := (calling f rt).2 in
  let once := apply_obj f a k (store (outer rt)) in
  exists rt2 r rt3,
    with_args d a k rt1 = Some (d, rt2)
    /\ heap rt2 !! d = Some (mkDeferred f a k)
    /\ (forall l, l <> d -> heap rt2 !! l = heap rt !! l)
    /\ outer rt2 = outer rt
    /\ __call__ d rt2 = Some (r, rt3)
    /\ heap rt3 = heap rt2
    /\ store (outer rt3) = once.2
    /\ trace (outer rt3)
       = trace (outer rt) ++ [mkEvent (obj_id f) a k (outcome_of once.1)]
    /\ (forall e, once.1 = Raise e <-> r = Raise e)
    /\ ((exists v, once.1 = Ok v) <-> r = Ok VNone).
Proof.
  intros d rt1 once.
  unfold with_args, __call__, rt1, calling, new_deferred. cbn [snd heap outer].
  fold d. rewrite lookup_insert_eq. cbn [mbind option_bind func].
  eexists _, _, _. split; [reflexivity|]. cbn [heap outer].
  rewrite lookup_insert_eq. cbn [fst snd func args kwargs call_in].
  split; [reflexivity|]. split.
  { intros l Hl. rewrite !lookup_insert_ne; [reflexivity| |]. all: (intros E; apply Hl; symmetry; exact E). }
  split; [reflexivity|]. split; [reflexivity|].
  split; [reflexivity|]. split; [reflexivity|]. split; [reflexivity|].
  cbn [func args kwargs]. fold once. destruct once.1 as [v|e']; split.
  - split; discriminate.
  - split; [reflexivity|eauto].
  - intros e. split; intros [= ->]; reflexivity.
  - split; [intros [v Hv]; discriminate|discriminate].
Qed.

End DeferredClaims.

(* ===================================================================== *)
(** ** The contract at work *)
(* ===================================================================== *)

Module Witnesses.

Import Examples.

(** [ValueError] expected with pattern [bad]; the candidate raises
    [ValueError] with a text that holds the pattern. *)
Lemma matches_iff_expected_error_witness :
  obj_callable (raiser 1 (ValueError "this is bad input")) = true
  /\ obj_weakref (raiser 1 (ValueError "this is bad input")) = true
  /\ (_matches literal_search (raiser 1 (ValueError "this is bad input"))
        (start (raises "ValueError" (Some "bad")))).1 = Ok true.
Proof.
  split; [reflexivity|]. split; [reflexivity|].
  apply (proj1 (matches_iff_expected_error literal_search
                  (raiser 1 (ValueError "this is bad input"))
                  (start (raises "ValueError" (Some "bad")))
                  eq_refl eq_refl)).
  exists (ValueError "this is bad input").
  split; [reflexivity|]. split; [reflexivity|].
  right. exists "bad". split; reflexivity.
Defined.

(** The integer [5] as candidate. *)
Lemma not_callable_no_invocation_witness :
  obj_callable five = false
  /\ obj_tuple five = None
  /\ _matches literal_search five (start (raises "ValueError" None))
     = (Ok false, start (raises "ValueError" None))
  /\ sink (describe_mismatch literal_search five
             (start (raises "ValueError" None))).2
     = "5 is not callable".
Proof.
  split; [reflexivity|]. split; [reflexivity|].
  destruct (not_callable_no_invocation literal_search five
              (start (raises "ValueError" None)) eq_refl eq_refl)
    as [Hm Hd].
  split; [exact Hm|]. rewrite Hd. reflexivity.
Defined.

(** A candidate that returns. *)
Lemma no_exception_raised_witness :
  obj_callable (quiet 1) = true
  /\ obj_weakref (quiet 1) = true
  /\ (exists v, (obj_call (quiet 1) [] ∅ 0).1 = Ok v)
  /\ (_matches literal_search (quiet 1)
        (start (raises "ValueError" None))).1 = Ok false
  /\ sink (describe_mismatch literal_search (quiet 1)
             (with_sink EmptyString
                (_matches literal_search (quiet 1)
                   (start (raises "ValueError" None))).2)).2
     = "No exception raised.".
Proof.
  split; [reflexivity|]. split; [reflexivity|].
  split; [exists VNone; reflexivity|].
  destruct (no_exception_raised literal_search (quiet 1)
              (start (raises "ValueError" None)) EmptyString eq_refl eq_refl
              (ex_intro _ VNone eq_refl)) as [Hm Hd].
  split; [exact Hm|]. rewrite Hd. reflexivity.
Defined.

(** [ValueError] expected with pattern [bad]; the candidate raises
    [ValueError] with text [ok input]. *)
Lemma pattern_not_found_message_witness :
  obj_callable (raiser 1 (ValueError "ok input")) = true
  /\ obj_weakref (raiser 1 (ValueError "ok input")) = true
  /\ isinstance (ValueError "ok input") "ValueError" = true
  /\ literal_search "bad" "ok input" = Ok false
  /\ contains
       (sink (describe_mismatch literal_search
                (raiser 1 (ValueError "ok input"))
                (with_sink EmptyString
                   (_matches literal_search
                      (raiser 1 (ValueError "ok input"))
                      (start (raises "ValueError" (Some "bad")))).2)).2)
       "ok input".
Proof.
  split; [reflexivity|]. split; [reflexivity|]. split; [reflexivity|].
  split; [reflexivity|].
  destruct (pattern_not_found_message literal_search
              (raiser 1 (ValueError "ok input"))
              (start (raises "ValueError" (Some "bad"))) EmptyString
              (ValueError "ok input") "bad"
              eq_refl eq_refl eq_refl eq_refl eq_refl eq_refl)
    as (_ & Hd & _ & Ht).
  rewrite Hd. exact Ht.
Defined.

(** [ValueError] expected, no pattern; the candidate raises [ValueError]. *)
Lemma expected_kind_no_pattern_silent_witness :
  obj_callable (raiser 1 (ValueError "x")) = true
  /\ obj_weakref (raiser 1 (ValueError "x")) = true
  /\ isinstance (ValueError "x") "ValueError" = true
  /\ sink (describe_mismatch literal_search (raiser 1 (ValueError "x"))
             (with_sink EmptyString
                (_matches literal_search (raiser 1 (ValueError "x"))
                   (start (raises "ValueError" None))).2)).2
     = EmptyString.
Proof.
  split; [reflexivity|]. split; [reflexivity|]. split; [reflexivity|].
  rewrite (expected_kind_no_pattern_silent literal_search
             (raiser 1 (ValueError "x")) (start (raises "ValueError" None))
             EmptyString (ValueError "x")
             eq_refl eq_refl eq_refl eq_refl eq_refl).
  reflexivity.
Defined.

(** A candidate that counts its calls and raises the wrong exception: after
    [_matches] and [describe_mismatch] its counter stands at one. *)
Lemma describe_mismatch_reuses_error_witness :
  obj_callable (raiser 1 (TypeError "x")) = true
  /\ (_matches literal_search (raiser 1 (TypeError "x"))
        (start (raises "ValueError" None))).1 = Ok false
  /\ store (env (describe_mismatch literal_search (raiser 1 (TypeError "x"))
                   (with_sink EmptyString
                      (_matches literal_search (raiser 1 (TypeError "x"))
                         (start (raises "ValueError" None))).2)).2)
     = 1.
Proof.
  split; [reflexivity|]. split; [reflexivity|].
  destruct (describe_mismatch_reuses_error literal_search
              (raiser 1 (TypeError "x")) (start (raises "ValueError" None))
              EmptyString eq_refl eq_refl)
    as (_ & _ & _ & Hstore & _).
  exact Hstore.
Defined.

(** A candidate raising [TypeError] where [ValueError] is expected: the
    exception ends in [actual], and nothing is raised to the caller. *)
Lemma candidate_errors_absorbed_witness :
  (apply_obj (raiser 1 (TypeError "x")) [] ∅ 0).1 = Raise (TypeError "x")
  /\ actual (self (describe_match literal_search (raiser 1 (TypeError "x"))
                     (start (raises "ValueError" (Some "bad")))).2)
     = Some (TypeError "x")
  /\ (describe_match literal_search (raiser 1 (TypeError "x"))
        (start (raises "ValueError" (Some "bad")))).1 = Ok tt.
Proof.
  split; [reflexivity|].
  destruct (candidate_errors_absorbed literal_search
              (raiser 1 (TypeError "x"))
              (start (raises "ValueError" (Some "bad")))
              (TypeError "x") eq_refl)
    as (_ & Hok & _ & Hact).
  split; [exact Hact|].
  apply Hok.
  - intros p _. eexists. reflexivity.
  - reflexivity.
  - discriminate.
Defined.

(** A matcher that has called nothing yet is consistent, and stays so. *)
Lemma actual_tracks_last_call_witness :
  consistent (start (raises "ValueError" None))
  /\ consistent (_matches literal_search (raiser 1 (TypeError "x"))
                   (start (raises "ValueError" None))).2.
Proof.
  split; [reflexivity|].
  exact (proj1 (actual_tracks_last_call literal_search
                  (raiser 1 (TypeError "x"))
                  (start (raises "ValueError" None)) eq_refl)).
Defined.

(** [calling(target).with_args(1, 2, key=v)], then the call. *)
Example deferred_call_forwards :
  let d := (calling target start_rt).1 in
  let rt1 := (calling target start_rt).2 in
  match with_args d [VInt 1; VInt 2] {["key" := VStr "v"]} rt1 with
  | Some (d', rt2) =>
      d' = d
      /\ match __call__ d' rt2 with
         | Some (r, rt3) =>
             r = Raise (ValueError "v")
             /\ store (outer rt3) = 3
             /\ length (trace (outer rt3)) = 1
         | None => False
         end
  | None => False
  end.
Proof. vm_compute. repeat split. Qed.

End Witnesses.

(* ===================================================================== *)
(** ** Further properties of the matcher *)
(* ===================================================================== *)

(** Counting the calls of [o] in a trace that grew by one call. *)
Lemma calls_of_snoc (o : nat) (t : list event) (ev : event) :
  calls_of o (t ++ [ev])
  = calls_of o t + (if decide (ev_target ev = o) then 1 else 0).
Proof.
  unfold calls_of. rewrite filter_app, length_app. f_equal.
  destruct (decide (ev_target ev = o)) as [E|E].
  - now rewrite filter_cons_True.
  - now rewrite filter_cons_False.
Qed.

Section MatcherMore.

Context {U : Type} (re_search : string -> string -> res bool).
Implicit Types (s : Machine U) (f g item : PyObj U) (e : PyExc)
  (d : Description).

(** What [describe_match] leaves behind, in terms of [_call_function]. *)
Lemma describe_match_run item s :
  describe_match re_search item s =
  match (_call_function re_search item s).1 with
  | Ok _ =>
      (Ok tt,
       with_sink
         (sink s +:+ repr_opt (outcome_of (call_in item [] ∅ (env s)).1)
          +:+ " of type "
          +:+ type_str_opt (outcome_of (call_in item [] ∅ (env s)).1)
          +:+ " was raised.")
         (_call_function re_search item s).2)
  | Raise x => (Raise x, (_call_function re_search item s).2)
  end.
Proof.
  unfold describe_match, mbind, M_bind, bind.
  pose proof (_call_function_run re_search item s) as Hrun.
  destruct (_call_function re_search item s) as [[b|x] s'];
    injection Hrun as _ ->; reflexivity.
Qed.

(** X1.  When the exception captured by [_matches], on a candidate that
    supports weak references, is not an instance of the expected class,
    [_matches] returns false and [describe_mismatch] on the same candidate
    appends the exception's [repr], [ of type ], the
    text of its class and [ was raised instead]: the description names
    both the exception and its class. *)
Theorem wrong_kind_message f s d e :
  obj_callable f = true ->
  obj_weakref f = true ->
  (obj_call f [] ∅ (store (env s))).1 = Raise e ->
  isinstance e (expected (self s)) = false ->
  let s1 := (_matches re_search f s).2 in
  let text :=
    exc_repr e +:+ " of type " +:+ class_str (exc_class e)
    +:+ " was raised instead" in
  (_matches re_search f s).1 = Ok false
  /\ describe_mismatch re_search f (with_sink d s1)
     = (Ok tt, with_sink (d +:+ text) s1)
  /\ contains (d +:+ text) (exc_repr e)
  /\ contains (d +:+ text) (exc_class e).
Proof.
  intros Hc Hw He Hi s1 text.
  destruct (_matches_frame re_search f s Hc Hw) as (_ & Fe & _ & _).
  pose proof (_matches_actual re_search f s Hc Hw) as Fa.
  rewrite He in Fa. cbn [outcome_of] in Fa.
  repeat split.
  - rewrite (_matches_callable re_search f s Hc Hw), _call_function_run.
    cbn [fst env self expected pattern].
    rewrite (call_in_callable f (env s) Hc). cbn [fst].
    now rewrite He, Hi.
  - rewrite describe_mismatch_same;
      [|exact Hc|apply (_matches_function re_search f s Hc Hw)].
    rewrite (describe_actual_other (with_sink d s1) e);
      [reflexivity| |]; cbn [with_sink self]; unfold s1.
    + exact Fa.
    + now rewrite Fe.
  - exists d, (" of type " +:+ class_str (exc_class e)
               +:+ " was raised instead").
    reflexivity.
  - unfold text, class_str.
    exists (d +:+ exc_repr e +:+ " of type " +:+ "<class '"),
           ("'>" +:+ " was raised instead").
    now rewrite !append_assoc.
Qed.

(** X2.  [describe_match] calls the candidate whether or not it was just
    checked: after [_matches] and [describe_match] on the same callable,
    one that supports weak references, the candidate has been called twice, the second call running on the store
    the first one left.  [describe_match] leaves the stored reference as it
    found it. *)
Theorem describe_match_calls_again f s :
  obj_callable f = true ->
  obj_weakref f = true ->
  let s1 := (_matches re_search f s).2 in
  let s2 := (describe_match re_search f s1).2 in
  calls_of (obj_id f) (trace (env s2))
  = 2 + calls_of (obj_id f) (trace (env s))
  /\ store (env s2)
     = (obj_call f [] ∅ (obj_call f [] ∅ (store (env s))).2).2
  /\ function (self s2) = function (self s1).
Proof.
  intros Hc Hw s1 s2.
  destruct (_matches_frame re_search f s Hc Hw) as (_ & _ & _ & Fw).
  fold s1 in Fw. rewrite (call_in_callable f (env s) Hc) in Fw.
  cbn [snd] in Fw.
  assert (H2 : env s2 = (call_in f [] ∅ (env s1)).2
               /\ function (self s2) = function (self s1)).
  { unfold s2. rewrite describe_match_run, _call_function_run.
    cbn [fst]. destruct (match (call_in f [] ∅ (env s1)).1 with
                         | Ok _ => Ok false
                         | Raise e0 => _
                         end); split; reflexivity. }
  destruct H2 as [He2 Hf2].
  rewrite He2, (call_in_callable f (env s1) Hc), Fw. cbn [snd store trace].
  repeat split; [|exact Hf2].
  unfold calls_of. rewrite !filter_app, !length_app.
  rewrite !filter_cons_True by reflexivity. simpl. lia.
Qed.

(** X3.  Whenever [describe_match] returns, it has appended the [repr] and
    the class of what the call it made raised, followed by [ was raised.];
    when it raises instead (the regular-expression engine refusing the
    pattern) it has appended nothing. *)
Theorem describe_match_message item s :
  let o := outcome_of (apply_obj item [] ∅ (store (env s))).1 in
  match (describe_match re_search item s).1 with
  | Ok _ =>
      sink (describe_match re_search item s).2
      = sink s +:+ repr_opt o +:+ " of type " +:+ type_str_opt o
        +:+ " was raised."
  | Raise _ => sink (describe_match re_search item s).2 = sink s
  end.
Proof.
  intros o. rewrite describe_match_run.
  destruct (_call_function re_search item s).1 as [b|x] eqn:E; cbn [fst snd].
  - reflexivity.
  - rewrite _call_function_run. reflexivity.
Qed.

(** X4.  [describe_match] on a candidate whose call returns reports the
    absent exception as it stands: it appends [None of type <class
    'NoneType'> was raised.], and [actual] is empty. *)
Theorem describe_match_no_exception f s :
  obj_callable f = true ->
  (exists v, (obj_call f [] ∅ (store (env s))).1 = Ok v) ->
  (describe_match re_search f s).1 = Ok tt
  /\ sink (describe_match re_search f s).2
     = sink s +:+ "None of type <class 'NoneType'> was raised."
  /\ actual (self (describe_match re_search f s).2) = None.
Proof.
  intros Hc [v Hv]. rewrite describe_match_run, _call_function_run.
  cbn [fst snd]. rewrite (call_in_callable f (env s) Hc). cbn [fst].
  rewrite Hv. cbn [with_sink sink self actual outcome_of repr_opt type_str_opt].
  repeat split.
Qed.

(** X5.  [describe_match] has no guard for candidates that are not
    callable.  Where [_matches] calls nothing, [describe_match] attempts
    the call; the [TypeError] of that attempt is captured into [actual]
    and, no pattern being set, reported as the exception raised. *)
Theorem describe_match_not_callable item s :
  obj_callable item = false ->
  pattern (self s) = None ->
  (_matches re_search item s).2 = s
  /\ (describe_match re_search item s).1 = Ok tt
  /\ actual (self (describe_match re_search item s).2)
     = Some (not_callable_error item)
  /\ sink (describe_match re_search item s).2
     = sink s +:+ exc_repr (not_callable_error item)
       +:+ " of type <class 'TypeError'> was raised."
  /\ trace (env (describe_match re_search item s).2)
     = trace (env s)
       ++ [mkEvent (obj_id item) [] ∅ (Some (not_callable_error item))].
Proof.
  intros Hc Hp. split.
  { now rewrite (proj1 (not_callable_sound re_search item s Hc)). }
  rewrite describe_match_run, _call_function_run.
  unfold call_in, apply_obj. rewrite Hc, Hp. cbn [fst snd outcome_of].
  destruct (isinstance (not_callable_error item) (expected (self s)));
    repeat split.
Qed.

(** X6.  The pattern is searched for only in an exception of the expected
    class.  When the candidate, a callable that supports weak references,
    returns, or raises something else, the regular-expression engine is
    not consulted: [_matches] returns false and leaves the same state
    whatever engine is in place, even one that would refuse the pattern. *)
Theorem pattern_not_searched_on_wrong_kind f s
    (other_search : string -> string -> res bool) :
  obj_callable f = true ->
  obj_weakref f = true ->
  (forall e, (obj_call f [] ∅ (store (env s))).1 = Raise e ->
             isinstance e (expected (self s)) = false) ->
  (_matches re_search f s).1 = Ok false
  /\ _matches other_search f s = _matches re_search f s.
Proof.
  intros Hc Hw Hk.
  rewrite !(_matches_callable _ f s Hc Hw), !_call_function_run.
  cbn [fst snd self env expected pattern].
  rewrite (call_in_callable f (env s) Hc). cbn [fst snd].
  destruct (obj_call f [] ∅ (store (env s))).1 as [v|e] eqn:E;
    [split; reflexivity|].
  rewrite (Hk e eq_refl). split; reflexivity.
Qed.

(** X7.  [describe_match] does not record which candidate it called.
    After [_matches] on [f], a callable that supports weak references,
    and [describe_match] on [g], the stored
    reference still resolves to [f], so [describe_mismatch] on [f] calls
    nothing and reports what [g] did: [actual] is the outcome of the call
    of [g], and when that call returned the text is [No exception
    raised.], whatever [f] had raised. *)
Theorem describe_match_leaves_reference f g s d :
  obj_callable f = true ->
  obj_weakref f = true ->
  let s1 := (_matches re_search f s).2 in
  let s2 := (describe_match re_search g s1).2 in
  let s3 := (describe_mismatch re_search f (with_sink d s2)).2 in
  function (self s2) = Some (Live (obj_id f))
  /\ env s3 = env s2
  /\ actual (self s3) = outcome_of (apply_obj g [] ∅ (store (env s1))).1
  /\ ((exists v, (apply_obj g [] ∅ (store (env s1))).1 = Ok v) ->
      sink s3 = d +:+ "No exception raised.").
Proof.
  intros Hc Hw s1 s2 s3.
  assert (H2 : function (self s2) = Some (Live (obj_id f))
               /\ actual (self s2)
                  = outcome_of (apply_obj g [] ∅ (store (env s1))).1).
  { unfold s2. rewrite describe_match_run, _call_function_run.
    cbn [fst]. unfold s1 at 5 6.
    pose proof (_matches_function re_search f s Hc Hw) as Hf. fold s1 in Hf.
    destruct (match (call_in g [] ∅ (env s1)).1 with
              | Ok _ => Ok false
              | Raise e0 => _
              end); cbn [snd with_sink self function actual];
      (split; [exact Hf|reflexivity]). }
  destruct H2 as [Hf2 Ha2].
  assert (H3 : describe_mismatch re_search f (with_sink d s2)
               = describe_actual (with_sink d s2)).
  { apply describe_mismatch_same; [exact Hc|exact Hf2]. }
  unfold s3. rewrite H3.
  split; [exact Hf2|].
  split.
  { destruct (describe_actual_total (with_sink d s2)) as [t ->].
    reflexivity. }
  split.
  { destruct (describe_actual_total (with_sink d s2)) as [t ->].
    exact Ha2. }
  intros [v Hv]. rewrite Hv in Ha2. cbn [outcome_of] in Ha2.
  rewrite (describe_actual_none (with_sink d s2) Ha2). reflexivity.
Qed.

(** X8.  A check of another candidate makes the matcher forget the first:
    after [_matches] on [f] and then on [g], an object other than [f],
    both callable and supporting weak references, [describe_mismatch] on
    [f] calls [f] again, so that [f] has been called twice. *)
Theorem other_check_invalidates f g s :
  obj_callable f = true ->
  obj_weakref f = true ->
  obj_callable g = true ->
  obj_weakref g = true ->
  obj_id f <> obj_id g ->
  let s1 := (_matches re_search f s).2 in
  let s2 := (_matches re_search g s1).2 in
  let s3 := (describe_mismatch re_search f s2).2 in
  calls_of (obj_id f) (trace (env s3))
  = 2 + calls_of (obj_id f) (trace (env s)).
Proof.
  intros Hf Hwf Hg Hwg Hne s1 s2 s3.
  destruct (_matches_frame re_search f s Hf Hwf) as (_ & _ & _ & F1).
  destruct (_matches_frame re_search g s1 Hg Hwg) as (_ & _ & _ & F2).
  fold s1 in F1, F2. fold s2 in F2.
  assert (Hst : stale (match function (self s2) with
                       | None => None
                       | Some r => deref r
                       end) f = true).
  { unfold s2. rewrite (_matches_function re_search g s1 Hg Hwg).
    cbn [deref stale]. rewrite negb_true_iff, bool_decide_eq_false.
    intros E. apply Hne. symmetry. exact E. }
  destruct (describe_mismatch_reinvokes re_search f s2 Hf Hwf Hst)
    as (_ & _ & F3).
  fold s3 in F3. rewrite F3, F2, F1. unfold call_in. cbn [snd trace].
  rewrite !calls_of_snoc. cbn [ev_target].
  rewrite decide_True by reflexivity.
  rewrite decide_False by (intros E; apply Hne; symmetry; exact E).
  lia.
Qed.

(** X9.  A dead reference resolves to nothing.  A candidate checked by
    [_matches] can be collected when its call returned: an exception it
    raised would sit in [actual] and keep it alive through its traceback.
    Once such a candidate has been collected, [actual] is empty and
    [describe_mismatch] calls whatever callable it is given, be it a new
    object at the old identity, and stores a reference to it; both objects
    support weak references. *)
Theorem collected_candidate_is_forgotten f item s :
  obj_callable f = true ->
  obj_weakref f = true ->
  (exists v, (obj_call f [] ∅ (store (env s))).1 = Ok v) ->
  obj_callable item = true ->
  obj_weakref item = true ->
  let s1 := collect (obj_id f) (_matches re_search f s).2 in
  let s2 := (describe_mismatch re_search item s1).2 in
  function (self s1) = Some Dead
  /\ actual (self s1) = None
  /\ trace (env s2)
     = trace (env s1)
       ++ [mkEvent (obj_id item) [] ∅
             (outcome_of (obj_call item [] ∅ (store (env s1))).1)]
  /\ function (self s2) = Some (Live (obj_id item)).
Proof.
  intros Hf Hwf [v Hv] Hi Hwi s1 s2.
  pose proof (stale_after_collect re_search f item s Hf Hwf) as Hst.
  fold s1 in Hst.
  destruct (describe_mismatch_reinvokes re_search item s1 Hi Hwi Hst)
    as (F1 & _ & F3).
  fold s2 in F1, F3.
  split.
  { unfold s1, collect. rewrite (_matches_function re_search f s Hf Hwf).
    destruct (decide (obj_id f = obj_id f)) as [_|Hn]; [reflexivity|].
    now destruct Hn. }
  split.
  { pose proof (_matches_actual re_search f s Hf Hwf) as Fa.
    rewrite Hv in Fa. cbn [outcome_of] in Fa.
    unfold s1, collect.
    destruct (function (self (_matches re_search f s).2)) as [[o|]|];
      [destruct (decide (o = obj_id f))| |]; exact Fa. }
  split; [|exact F1].
  rewrite F3, (call_in_callable item (env s1) Hi). reflexivity.
Qed.

(** X10.  A check does not depend on what the matcher checked before: on a
    callable that supports weak references, [_matches] gives the same
    result and leaves the same state whatever [actual] and the stored
    reference held on entry. *)
Theorem verdict_ignores_history f s (a : option PyExc) (r : option weakref) :
  obj_callable f = true ->
  obj_weakref f = true ->
  _matches re_search f
    {| self := {| pattern := pattern (self s);
                  expected := expected (self s);
                  actual := a;
                  function := r |};
       sink := sink s;
       env := env s |}
  = _matches re_search f s.
Proof.
  intros Hc Hw. rewrite !(_matches_callable re_search f _ Hc Hw).
  rewrite !_call_function_run. reflexivity.
Qed.

(** X11.  The expectation is never touched: [_matches],
    [describe_mismatch], [describe_match] and [describe_to] leave pattern
    and expected class as they found them, also when they raise. *)
Theorem expectation_is_immutable item s :
  let keeps (s' : Machine U) :=
    pattern (self s') = pattern (self s)
    /\ expected (self s') = expected (self s) in
  keeps (_matches re_search item s).2
  /\ keeps (describe_mismatch re_search item s).2
  /\ keeps (describe_match re_search item s).2
  /\ keeps (describe_to s).2.
Proof.
  intros keeps.
  assert (Hcall : forall s', keeps s' ->
                             keeps (_call_function re_search item s').2).
  { intros s' Hs'. rewrite _call_function_run. exact Hs'. }
  assert (H0 : keeps s) by (split; reflexivity).
  split; [|split; [|split]].
  - destruct (_matches_cases re_search item s)
      as [[_ ->]|[(_ & _ & ->)|(_ & _ & ->)]];
      [exact H0|exact H0|now apply Hcall].
  - destruct (describe_mismatch_cases re_search item s)
      as [[t ->]|[(x & -> & _)|(_ & _ & s' & Es & Hs)]];
      [exact H0|exact H0|].
    assert (Hk : keeps s') by (rewrite Es; exact H0).
    pose proof (Hcall s' Hk) as Hc'.
    destruct Hs as [(x & _ & ->)|[(_ & ->)|(_ & t & ->)]]; exact Hc'.
  - rewrite describe_match_run.
    pose proof (Hcall s H0) as Hc'.
    destruct (_call_function re_search item s).1; exact Hc'.
  - exact H0.
Qed.

(** X12.  The description is only ever appended to: [_matches] leaves it
    alone, and after [describe_mismatch], [describe_match] or [describe_to]
    it is the text it was, followed by what the operation wrote. *)
Theorem description_is_append_only item s :
  sink (_matches re_search item s).2 = sink s
  /\ (exists t, sink (describe_mismatch re_search item s).2 = sink s +:+ t)
  /\ (exists t, sink (describe_match re_search item s).2 = sink s +:+ t)
  /\ (exists t, sink (describe_to s).2 = sink s +:+ t).
Proof.
  assert (Hnil : forall x : string, x = x +:+ EmptyString).
  { intros x. induction x as [|c x IH]; [reflexivity|].
    change (String c x +:+ EmptyString) with (String c (x +:+ EmptyString)).
    now rewrite <- IH. }
  assert (Hcall : forall s',
             sink (_call_function re_search item s').2 = sink s').
  { intros s'. rewrite _call_function_run. reflexivity. }
  split; [|split; [|split]].
  - destruct (_matches_cases re_search item s)
      as [[_ ->]|[(_ & _ & ->)|(_ & _ & ->)]];
      [reflexivity|reflexivity|].
    rewrite Hcall. reflexivity.
  - destruct (describe_mismatch_cases re_search item s)
      as [[t ->]|[(x & -> & _)|(_ & _ & s' & Es & Hs)]].
    + exists t. reflexivity.
    + exists EmptyString. apply Hnil.
    + assert (Hs' : sink (_call_function re_search item s').2 = sink s).
      { rewrite Hcall, Es. reflexivity. }
      destruct Hs as [(x & _ & ->)|[(_ & ->)|(_ & t & ->)]];
        cbn [snd with_sink sink].
      * exists EmptyString. rewrite Hs'. apply Hnil.
      * exists EmptyString. rewrite Hs'. apply Hnil.
      * exists t. now rewrite Hs'.
  - rewrite describe_match_run.
    destruct (_call_function re_search item s).1; cbn [snd with_sink sink].
    + eexists. reflexivity.
    + exists EmptyString. rewrite Hcall. apply Hnil.
  - eexists. reflexivity.
Qed.

(** X13.  One operation makes at most one call, and only of the candidate
    it was given, without arguments: after [_matches], [describe_mismatch]
    or [describe_match] the world is either untouched or what one call of
    the candidate made of it.  [describe_to] calls nothing. *)
Theorem at_most_one_call item s :
  let untouched_or_called (s' : Machine U) :=
    env s' = env s \/ env s' = (call_in item [] ∅ (env s)).2 in
  untouched_or_called (_matches re_search item s).2
  /\ untouched_or_called (describe_mismatch re_search item s).2
  /\ env (describe_match re_search item s).2 = (call_in item [] ∅ (env s)).2
  /\ env (describe_to s).2 = env s.
Proof.
  intros P.
  assert (Hcall : forall s', env s' = env s ->
             env (_call_function re_search item s').2
             = (call_in item [] ∅ (env s)).2).
  { intros s' Hs'. rewrite _call_function_run. cbn [snd env].
    now rewrite Hs'. }
  split; [|split; [|split]].
  - destruct (_matches_cases re_search item s)
      as [[_ ->]|[(_ & _ & ->)|(_ & _ & ->)]];
      [left; reflexivity|left; reflexivity|].
    right. now apply Hcall.
  - destruct (describe_mismatch_cases re_search item s)
      as [[t ->]|[(x & -> & _)|(_ & _ & s' & Es & Hs)]];
      [left; reflexivity|left; reflexivity|].
    assert (Hs' : env (_call_function re_search item s').2
                  = (call_in item [] ∅ (env s)).2).
    { apply Hcall. rewrite Es. reflexivity. }
    right.
    destruct Hs as [(x & _ & ->)|[(_ & ->)|(_ & t & ->)]]; exact Hs'.
  - rewrite describe_match_run.
    destruct (_call_function re_search item s).1; cbn [snd with_sink env];
      now apply Hcall.
  - reflexivity.
Qed.

End MatcherMore.

(* ===================================================================== *)
(** ** Further properties of the deferred call *)
(* ===================================================================== *)

Section DeferredMore.

Context {U : Type} (re_search : string -> string -> res bool).
Implicit Types (f g : PyObj U) (rt : Runtime U) (a : list PyVal)
  (k : gmap string PyVal) (dc : DeferredCallable U) (l : nat)
  (s : Machine U).

(** X14.  [with_args] called again overwrites what was recorded: after two
    calls the object holds the arguments of the second, as if the first
    had not been made; the target is the one [calling] was given. *)
Theorem with_args_last_write_wins l dc a k a' k' rt :
  heap rt !! l = Some dc ->
  exists rt1 rt2,
    with_args l a k rt = Some (l, rt1)
    /\ with_args l a' k' rt1 = Some (l, rt2)
    /\ with_args l a' k' rt = Some (l, rt2)
    /\ heap rt2 !! l = Some (mkDeferred (func dc) a' k').
Proof.
  intros Hl. unfold with_args. rewrite Hl. cbn [mbind option_bind].
  eexists _, _. split; [reflexivity|]. cbn [heap outer].
  rewrite lookup_insert_eq. cbn [mbind option_bind func].
  rewrite insert_insert_eq. split; [reflexivity|]. split; [reflexivity|].
  cbn [heap]. now rewrite lookup_insert_eq.
Qed.

(** X15.  Without [with_args] the object made by [calling] calls its target
    with no argument at all: one call of [f] with an empty argument list
    and an empty keyword mapping. *)
Theorem calling_alone_passes_no_argument f rt :
  exists r rt',
    __call__ (calling f rt).1 (calling f rt).2 = Some (r, rt')
    /\ trace (outer rt')
       = trace (outer rt)
         ++ [mkEvent (obj_id f) [] ∅
               (outcome_of (apply_obj f [] ∅ (store (outer rt))).1)]
    /\ store (outer rt') = (apply_obj f [] ∅ (store (outer rt))).2.
Proof.
  unfold __call__, calling, new_deferred. cbn [fst snd heap outer].
  rewrite lookup_insert_eq. cbn [mbind option_bind func args kwargs].
  eexists _, _. split; [reflexivity|]. split; reflexivity.
Qed.

(** X16.  Calling the object consumes nothing: the recorded arguments stay,
    and a second call calls the target again with the same arguments, on
    the store the first call left. *)
Theorem deferred_call_is_repeatable l dc rt :
  heap rt !! l = Some dc ->
  let first := apply_obj (func dc) (args dc) (kwargs dc) (store (outer rt)) in
  let second := apply_obj (func dc) (args dc) (kwargs dc) first.2 in
  exists r1 rt1 r2 rt2,
    __call__ l rt = Some (r1, rt1)
    /\ __call__ l rt1 = Some (r2, rt2)
    /\ heap rt2 = heap rt
    /\ store (outer rt2) = second.2
    /\ trace (outer rt2)
       = trace (outer rt)
         ++ [mkEvent (obj_id (func dc)) (args dc) (kwargs dc)
               (outcome_of first.1);
             mkEvent (obj_id (func dc)) (args dc) (kwargs dc)
               (outcome_of second.1)].
Proof.
  intros Hl first second. unfold __call__. rewrite Hl.
  cbn [mbind option_bind].
  eexists _, _, _, _. split; [reflexivity|].
  cbn [heap outer]. rewrite Hl. cbn [mbind option_bind].
  split; [reflexivity|].
  cbn [heap outer call_in snd store trace].
  split; [reflexivity|]. split; [reflexivity|].
  rewrite <- app_assoc. reflexivity.
Qed.

(** X17.  Two objects made by [calling] are two objects: they differ in
    identity, recording arguments in the second leaves the first with the
    empty arguments it was made with, and no object that existed before is
    changed by either. *)
Theorem deferred_objects_do_not_alias f g a k rt :
  let d1 := (calling f rt).1 in
  let rt1 := (calling f rt).2 in
  let d2 := (calling g rt1).1 in
  let rt2 := (calling g rt1).2 in
  d1 <> d2
  /\ exists rt3,
       with_args d2 a k rt2 = Some (d2, rt3)
       /\ heap rt3 !! d1 = Some (mkDeferred f [] ∅)
       /\ heap rt3 !! d2 = Some (mkDeferred g a k)
       /\ (forall l dc, heap rt !! l = Some dc -> heap rt3 !! l = Some dc).
Proof.
  intros d1 rt1 d2 rt2.
  assert (H1 : heap rt1 !! d1 = Some (mkDeferred f [] ∅)).
  { unfold rt1, d1, calling, new_deferred. cbn [fst snd heap].
    now rewrite lookup_insert_eq. }
  assert (Hne : d1 <> d2).
  { intros E. pose proof (calling_fresh g rt1) as Hfr. fold d2 in Hfr.
    rewrite <- E, H1 in Hfr. discriminate. }
  split; [exact Hne|].
  unfold with_args, rt2, calling, new_deferred. cbn [snd heap outer].
  fold d2. rewrite lookup_insert_eq. cbn [mbind option_bind func].
  eexists. split; [reflexivity|]. cbn [heap].
  rewrite insert_insert_eq.
  split; [|split].
  - rewrite lookup_insert_ne by (intros E; apply Hne; symmetry; exact E).
    exact H1.
  - now rewrite lookup_insert_eq.
  - intros l dc Hl.
    assert (l <> d1).
    { intros ->. pose proof (calling_fresh f rt) as Hfr. fold d1 in Hfr.
      rewrite Hl in Hfr. discriminate. }
    assert (Hl1 : heap rt1 !! l = Some dc).
    { unfold rt1, calling, new_deferred. cbn [snd heap]. fold d1.
      rewrite lookup_insert_ne by (intros E; subst; contradiction).
      exact Hl. }
    assert (l <> d2).
    { intros ->. pose proof (calling_fresh g rt1) as Hfr. fold d2 in Hfr.
      rewrite Hl1 in Hfr. discriminate. }
    rewrite lookup_insert_ne by (intros E; subst; contradiction).
    exact Hl1.
Qed.

(** The candidate view of a deferred object does what [__call__] does. *)
Lemma as_candidate_call text misuse l dc rt :
  heap rt !! l = Some dc ->
  exists r rt',
    __call__ l rt = Some (r, rt')
    /\ apply_obj (as_candidate text misuse l dc) [] ∅ (store (outer rt))
       = (r, store (outer rt')).
Proof.
  intros Hl. unfold __call__. rewrite Hl. cbn [mbind option_bind].
  eexists _, _. split; [reflexivity|].
  unfold apply_obj at 1. cbn [as_candidate obj_callable obj_call].
  rewrite decide_True by (now rewrite map_size_empty).
  reflexivity.
Qed.

(** X18.  The matcher on a deferred call.  [_matches] on the object made by
    [calling] and [with_args] returns true exactly when calling the target
    with the recorded arguments raises an instance of the expected class
    and the pattern, if any, is found; the target has then run once, and
    [actual] is what that call raised. *)
Theorem raises_judges_deferred_call text misuse l dc s :
  let c := as_candidate text misuse l dc in
  let once := apply_obj (func dc) (args dc) (kwargs dc) (store (env s)) in
  ((_matches re_search c s).1 = Ok true <->
   exists e,
     once.1 = Raise e /\ isinstance e (expected (self s)) = true /\
     (pattern (self s) = None \/
      exists p, pattern (self s) = Some p
                /\ re_search p (exc_str e) = Ok true))
  /\ store (env (_matches re_search c s).2) = once.2
  /\ actual (self (_matches re_search c s).2) = outcome_of once.1.
Proof.
  intros c once.
  assert (Hc : obj_callable c = true) by reflexivity.
  assert (Hw : obj_weakref c = true) by reflexivity.
  assert (Hcall : obj_call c [] ∅ (store (env s))
                  = (match once.1 with
                     | Ok _ => Ok VNone
                     | Raise e => Raise e
                     end, once.2)).
  { cbn [c as_candidate obj_call].
    rewrite decide_True by (now rewrite map_size_empty). reflexivity. }
  rewrite (_matches_callable re_search c s Hc Hw), _call_function_run.
  cbn [fst snd self env expected pattern actual].
  rewrite (call_in_callable c (env s) Hc). cbn [fst snd store].
  rewrite Hcall. cbn [fst snd].
  split; [|split; [reflexivity|now destruct once.1]].
  destruct once.1 as [v|e]; split.
  - discriminate.
  - intros (e & [=] & _).
  - intros H. exists e. split; [reflexivity|].
    destruct (isinstance e (expected (self s))); [|discriminate].
    split; [reflexivity|].
    destruct (pattern (self s)) as [p|]; [right|left; reflexivity].
    exists p. split; [reflexivity|exact H].
  - intros (e' & [= <-] & -> & [-> | (p & -> & Hp)]); [reflexivity|exact Hp].
Qed.

(** X19.  [calling] accepts a target that is not callable, and the object
    it makes is callable all the same.  The matcher therefore calls it;
    the [TypeError] of calling the target is captured like any exception
    of the target, and a matcher expecting [TypeError] without a pattern
    is satisfied. *)
Theorem deferred_non_callable_target text misuse l dc s :
  obj_callable (func dc) = false ->
  let c := as_candidate text misuse l dc in
  obj_callable c = true
  /\ actual (self (_matches re_search c s).2)
     = Some (not_callable_error (func dc))
  /\ (pattern (self s) = None ->
      expected (self s) = "TypeError" ->
      (_matches re_search c s).1 = Ok true).
Proof.
  intros Hf c.
  assert (Hc : obj_callable c = true) by reflexivity.
  assert (Hw : obj_weakref c = true) by reflexivity.
  assert (Hcall : obj_call c [] ∅ (store (env s))
                  = (Raise (not_callable_error (func dc)), store (env s))).
  { cbn [c as_candidate obj_call].
    rewrite decide_True by (now rewrite map_size_empty).
    unfold apply_obj. now rewrite Hf. }
  split; [exact Hc|]. split.
  - rewrite (_matches_actual re_search c s Hc Hw), Hcall. reflexivity.
  - intros Hp He.
    rewrite (_matches_callable re_search c s Hc Hw), _call_function_run.
    cbn [fst snd self env expected pattern].
    rewrite (call_in_callable c (env s) Hc). cbn [fst].
    rewrite Hcall, Hp, He. reflexivity.
Qed.

End DeferredMore.

(* ===================================================================== *)
(** ** The further properties at work *)
(* ===================================================================== *)

Module MoreWitnesses.

Import Examples.

(** [ValueError] expected, the candidate raises [TypeError]. *)
Lemma wrong_kind_message_witness :
  obj_callable (raiser 1 (TypeError "x")) = true
  /\ obj_weakref (raiser 1 (TypeError "x")) = true
  /\ isinstance (TypeError "x") "ValueError" = false
  /\ sink (describe_mismatch literal_search (raiser 1 (TypeError "x"))
             (with_sink EmptyString
                (_matches literal_search (raiser 1 (TypeError "x"))
                   (start (raises "ValueError" None))).2)).2
     = "TypeError('x') of type <class 'TypeError'> was raised instead".
Proof.
  split; [reflexivity|]. split; [reflexivity|]. split; [reflexivity|].
  destruct (wrong_kind_message literal_search (raiser 1 (TypeError "x"))
              (start (raises "ValueError" None)) EmptyString (TypeError "x")
              eq_refl eq_refl eq_refl eq_refl) as (_ & Hd & _).
  rewrite Hd. reflexivity.
Defined.

(** The counting candidate, checked and then described as a match. *)
Lemma describe_match_calls_again_witness :
  obj_callable (raiser 1 (ValueError "x")) = true
  /\ obj_weakref (raiser 1 (ValueError "x")) = true
  /\ store (env (describe_match literal_search (raiser 1 (ValueError "x"))
                   (_matches literal_search (raiser 1 (ValueError "x"))
                      (start (raises "ValueError" None))).2).2)
     = 2.
Proof.
  split; [reflexivity|]. split; [reflexivity|].
  destruct (describe_match_calls_again literal_search
              (raiser 1 (ValueError "x")) (start (raises "ValueError" None))
              eq_refl eq_refl) as (_ & Hstore & _).
  exact Hstore.
Defined.

Lemma describe_match_no_exception_witness :
  obj_callable (quiet 1) = true
  /\ (exists v, (obj_call (quiet 1) [] ∅ 0).1 = Ok v)
  /\ sink (describe_match literal_search (quiet 1)
             (start (raises "ValueError" None))).2
     = "None of type <class 'NoneType'> was raised.".
Proof.
  split; [reflexivity|]. split; [exists VNone; reflexivity|].
  exact (proj1 (proj2 (describe_match_no_exception literal_search (quiet 1)
                         (start (raises "ValueError" None)) eq_refl
                         (ex_intro _ VNone eq_refl)))).
Defined.

(** The integer [5] described as a match. *)
Lemma describe_match_not_callable_witness :
  obj_callable five = false
  /\ pattern (self (start (raises "ValueError" None))) = None
  /\ actual (self (describe_match literal_search five
                     (start (raises "ValueError" None))).2)
     = Some (not_callable_error five).
Proof.
  split; [reflexivity|]. split; [reflexivity|].
  exact (proj1 (proj2 (proj2 (describe_match_not_callable literal_search five
                                (start (raises "ValueError" None))
                                eq_refl eq_refl)))).
Defined.

(** An engine that refuses every pattern makes no difference when the
    candidate raises [TypeError] and [ValueError] is expected. *)
Lemma pattern_not_searched_on_wrong_kind_witness :
  obj_callable (raiser 1 (TypeError "x")) = true
  /\ obj_weakref (raiser 1 (TypeError "x")) = true
  /\ (forall e, (obj_call (raiser 1 (TypeError "x")) [] ∅ 0).1 = Raise e ->
                isinstance e "ValueError" = false)
  /\ (_matches (fun _ _ => Raise (ValueError "bad pattern"))
        (raiser 1 (TypeError "x"))
        (start (raises "ValueError" (Some "("))))
     = _matches literal_search (raiser 1 (TypeError "x"))
         (start (raises "ValueError" (Some "("))).
Proof.
  assert (H : forall e,
             (obj_call (raiser 1 (TypeError "x")) [] ∅ 0).1 = Raise e ->
             isinstance e "ValueError" = false).
  { intros e [= <-]. reflexivity. }
  split; [reflexivity|]. split; [reflexivity|]. split; [exact H|].
  exact (proj2 (pattern_not_searched_on_wrong_kind literal_search
                  (raiser 1 (TypeError "x"))
                  (start (raises "ValueError" (Some "(")))
                  (fun _ _ => Raise (ValueError "bad pattern"))
                  eq_refl eq_refl H)).
Defined.

(** [f] raises, [g] returns: the mismatch of [f] is described as no
    exception at all. *)
Lemma describe_match_leaves_reference_witness :
  obj_callable (raiser 1 (TypeError "x")) = true
  /\ obj_weakref (raiser 1 (TypeError "x")) = true
  /\ sink (describe_mismatch literal_search (raiser 1 (TypeError "x"))
             (with_sink EmptyString
                (describe_match literal_search (quiet 2)
                   (_matches literal_search (raiser 1 (TypeError "x"))
                      (start (raises "ValueError" None))).2).2)).2
     = "No exception raised.".
Proof.
  split; [reflexivity|]. split; [reflexivity|].
  destruct (describe_match_leaves_reference literal_search
              (raiser 1 (TypeError "x")) (quiet 2)
              (start (raises "ValueError" None)) EmptyString eq_refl eq_refl)
    as (_ & _ & _ & H).
  apply H. exists VNone. reflexivity.
Defined.

Lemma other_check_invalidates_witness :
  obj_callable (raiser 1 (TypeError "x")) = true
  /\ obj_weakref (raiser 1 (TypeError "x")) = true
  /\ obj_callable (quiet 2) = true
  /\ obj_weakref (quiet 2) = true
  /\ obj_id (raiser 1 (TypeError "x")) <> obj_id (quiet 2)
  /\ calls_of 1
       (trace (env (describe_mismatch literal_search
                      (raiser 1 (TypeError "x"))
                      (_matches literal_search (quiet 2)
                         (_matches literal_search (raiser 1 (TypeError "x"))
                            (start (raises "ValueError" None))).2).2).2))
     = 2.
Proof.
  assert (Hne : obj_id (raiser 1 (TypeError "x")) <> obj_id (quiet 2)).
  { cbn. lia. }
  split; [reflexivity|]. split; [reflexivity|].
  split; [reflexivity|]. split; [reflexivity|]. split; [exact Hne|].
  exact (other_check_invalidates literal_search (raiser 1 (TypeError "x"))
           (quiet 2) (start (raises "ValueError" None))
           eq_refl eq_refl eq_refl eq_refl Hne).
Defined.

(** The checked candidate returned and is collected; a new object at its
    identity is called afresh. *)
Lemma collected_candidate_is_forgotten_witness :
  obj_callable (quiet 1) = true
  /\ obj_weakref (quiet 1) = true
  /\ (exists v, (obj_call (quiet 1) [] ∅ 0).1 = Ok v)
  /\ obj_callable (raiser 1 (TypeError "x")) = true
  /\ obj_weakref (raiser 1 (TypeError "x")) = true
  /\ function
       (self (describe_mismatch literal_search (raiser 1 (TypeError "x"))
                (collect 1
                   (_matches literal_search (quiet 1)
                      (start (raises "ValueError" None))).2)).2)
     = Some (Live 1).
Proof.
  split; [reflexivity|]. split; [reflexivity|].
  split; [exists VNone; reflexivity|].
  split; [reflexivity|]. split; [reflexivity|].
  exact (proj2 (proj2 (proj2 (collected_candidate_is_forgotten literal_search
                                (quiet 1) (raiser 1 (TypeError "x"))
                                (start (raises "ValueError" None))
                                eq_refl eq_refl (ex_intro _ VNone eq_refl)
                                eq_refl eq_refl)))).
Defined.

Lemma verdict_ignores_history_witness :
  obj_callable (quiet 1) = true
  /\ obj_weakref (quiet 1) = true
  /\ _matches literal_search (quiet 1)
       {| self := {| pattern := None;
                     expected := "ValueError";
                     actual := Some (TypeError "old");
                     function := Some (Live 7) |};
          sink := EmptyString;
          env := {| store := 0; trace := [] |} |}
     = _matches literal_search (quiet 1) (start (raises "ValueError" None)).
Proof.
  split; [reflexivity|]. split; [reflexivity|].
  exact (verdict_ignores_history literal_search (quiet 1)
           (start (raises "ValueError" None)) (Some (TypeError "old"))
           (Some (Live 7)) eq_refl eq_refl).
Defined.

Lemma with_args_last_write_wins_witness :
  heap (calling target start_rt).2 !! (calling target start_rt).1
  = Some (mkDeferred target [] ∅)
  /\ exists rt1 rt2,
       with_args (calling target start_rt).1 [VInt 1] ∅
         (calling target start_rt).2
       = Some ((calling target start_rt).1, rt1)
       /\ with_args (calling target start_rt).1 [VInt 2] ∅ rt1
          = Some ((calling target start_rt).1, rt2)
       /\ with_args (calling target start_rt).1 [VInt 2] ∅
            (calling target start_rt).2
          = Some ((calling target start_rt).1, rt2)
       /\ heap rt2 !! (calling target start_rt).1
          = Some (mkDeferred target [VInt 2] ∅).
Proof.
  assert (H : heap (calling target start_rt).2 !! (calling target start_rt).1
              = Some (mkDeferred target [] ∅)).
  { vm_compute. reflexivity. }
  split; [exact H|].
  exact (with_args_last_write_wins (calling target start_rt).1
           (mkDeferred target [] ∅) [VInt 1] ∅ [VInt 2] ∅
           (calling target start_rt).2 H).
Defined.

Lemma deferred_call_is_repeatable_witness :
  heap (calling (quiet 9) start_rt).2 !! (calling (quiet 9) start_rt).1
  = Some (mkDeferred (quiet 9) [] ∅)
  /\ exists r1 rt1 r2 rt2,
       __call__ (calling (quiet 9) start_rt).1 (calling (quiet 9) start_rt).2
       = Some (r1, rt1)
       /\ __call__ (calling (quiet 9) start_rt).1 rt1 = Some (r2, rt2)
       /\ store (outer rt2) = 2.
Proof.
  assert (H : heap (calling (quiet 9) start_rt).2
              !! (calling (quiet 9) start_rt).1
              = Some (mkDeferred (quiet 9) [] ∅)).
  { vm_compute. reflexivity. }
  split; [exact H|].
  destruct (deferred_call_is_repeatable (calling (quiet 9) start_rt).1
              (mkDeferred (quiet 9) [] ∅) (calling (quiet 9) start_rt).2 H)
    as (r1 & rt1 & r2 & rt2 & H1 & H2 & _ & H4 & _).
  exists r1, rt1, r2, rt2. split; [exact H1|]. split; [exact H2|].
  exact H4.
Defined.

(** [calling(5)] under a matcher expecting [TypeError]. *)
Lemma deferred_non_callable_target_witness :
  obj_callable (func (mkDeferred five [] ∅)) = false
  /\ (_matches literal_search
        (as_candidate "<DeferredCallable object>" (TypeError "misuse") 3
           (mkDeferred five [] ∅))
        (start (raises "TypeError" None))).1 = Ok true.
Proof.
  split; [reflexivity|].
  exact (proj2 (proj2 (deferred_non_callable_target literal_search
                         "<DeferredCallable object>" (TypeError "misuse") 3
                         (mkDeferred five [] ∅)
                         (start (raises "TypeError" None)) eq_refl))
           eq_refl eq_refl).
Defined.

End MoreWitnesses.
